(** * OpenClaw responses provider: translation layer and stream reconstructor

    A shallow embedding of [src/openclaw-provider.ts]: the helpers
    [mapUsage], [mapFinishReason], [toToolOutputString], [isHttpUrl],
    [normalizeContentParts], [convertPromptToInput] and [mapTools], and the
    [TransformStream] that [doStream] pipes the vendor events through
    ([start], [transform], [flush]).

    Conventions.
    - JavaScript strings are [string]; [undefined]/[null] are [None].
    - A value of TypeScript type [unknown] (parsed JSON, a JSON schema, the
      raw value of a server-sent event) has the abstract type [JSON]; the
      host functions [JSON.stringify] and [convertToBase64] are variables of
      the development.
    - An object used as a map with a computed key ([providerMetadata]) is a
      [gmap].
    - The closure variables of [doStream] form the record [StreamState]; the
      stream controller is the list of parts enqueued so far. *)

From Stdlib Require Import ZArith Ascii String List.
From stdpp Require Import base option list strings gmap.
Import ListNotations.
Local Open Scope string_scope.
Local Open Scope Z_scope.
Local Open Scope list_scope.

(** ** JavaScript truthiness of the values the code tests *)

(** [if (text)], [if (activeTextId)], [responseId ? .. : ..] on a string. *)
Definition truthy (s : string) : bool :=
  if decide (s = "") then false else true.

(** The same test on a [string | null | undefined]. *)
Definition truthy_opt (o : option string) : bool :=
  match o with
  | Some s => truthy s
  | None => false
  end.

(** [a ?? b]. *)
Definition nullish {A : Type} (a : option A) (b : A) : A :=
  match a with
  | Some x => x
  | None => b
  end.

(** ** Usage and finish reason *)

(** [openclawUsageSchema]: three non-negative integers. *)
Record OpenClawUsage := {
  input_tokens : Z;
  output_tokens : Z;
  total_tokens : Z;
}.

Record InputTokens := {
  it_total : Z;
  it_noCache : Z;
  it_cacheRead : Z;
  it_cacheWrite : Z;
}.

Record OutputTokens := {
  ot_total : Z;
  ot_text : Z;
  ot_reasoning : Z;
}.

Record Usage := {
  inputTokens : InputTokens;
  outputTokens : OutputTokens;
  usage_raw : OpenClawUsage;
}.

Definition mapUsage (usage : OpenClawUsage) : Usage :=
  {| inputTokens :=
       {| it_total := input_tokens usage;
          it_noCache := input_tokens usage;
          it_cacheRead := 0;
          it_cacheWrite := 0 |};
     outputTokens :=
       {| ot_total := output_tokens usage;
          ot_text := output_tokens usage;
          ot_reasoning := 0 |};
     usage_raw := usage |}.

Record FinishReason := {
  unified : string;
  raw : string;
}.

(** The response status is compared as a string, as the code does; the
    response schema admits [in_progress], [completed], [failed],
    [cancelled] and [incomplete]. *)
Definition mapFinishReason (status : string) (sawToolCall : bool) : FinishReason :=
  if sawToolCall || bool_decide (status = "incomplete") then
    {| unified := "tool-calls"; raw := "tool_calls" |}
  else if decide (status = "completed") then
    {| unified := "stop"; raw := "completed" |}
  else if decide (status = "failed") then
    {| unified := "error"; raw := "failed" |}
  else
    {| unified := "other"; raw := status |}.

(** ** Vendor response and stream events ([openclawResponseSchema],
       [openclawStreamEventSchema]) *)

Record OpenClawError := {
  err_code : string;
  err_message : string;
}.

(** [openclawOutputItemSchema]; the content of a message item is its list of
    [output_text] texts. *)
Inductive OutputItem :=
| ItemMessage (id : string) (content : list string) (status : option string)
| ItemFunctionCall (id call_id name arguments : string) (status : option string)
| ItemReasoning (id : string) (content summary : option string).

Record OpenClawResponse := {
  resp_id : string;
  resp_created_at : Z;
  resp_status : string;
  resp_model : string;
  resp_output : list OutputItem;
  resp_usage : OpenClawUsage;
  resp_error : option OpenClawError;
}.

Inductive StreamEvent :=
| ResponseCreated (response : OpenClawResponse)
| ResponseInProgress (response : OpenClawResponse)
| ResponseCompleted (response : OpenClawResponse)
| ResponseFailed (response : OpenClawResponse)
| OutputTextDelta (item_id : string) (output_index content_index : Z) (delta : string)
| OutputTextDone (item_id : string) (output_index content_index : Z) (text : string)
| OutputItemAdded (output_index : Z) (item : OutputItem)
| OutputItemDone (output_index : Z) (item : OutputItem)
| ContentPartAdded (item_id : string) (output_index content_index : Z) (part : string)
| ContentPartDone (item_id : string) (output_index content_index : Z) (part : string).

(** [{ type: "unsupported", feature, details? }]. *)
Record Warning := {
  feature : string;
  details : option string;
}.

(** [{ [providerName]: { itemId } }] and [{ [providerName]: { responseId } }]. *)
Definition ProviderMetadata : Type := gmap string (gmap string string).

Definition itemMetadata (providerName id : string) : ProviderMetadata :=
  {[ providerName := {[ "itemId" := id ]} ]}.

Definition responseMetadata (providerName id : string) : ProviderMetadata :=
  {[ providerName := {[ "responseId" := id ]} ]}.

(** ** The state of one streaming call *)

(** What [doStream] has in scope when it builds the transform. *)
Record StreamConfig := {
  providerName : string;
  responseHeaders : gmap string string;
  includeRawChunks : bool;
  warnings : list Warning;
}.

(** The closure variables [responseId], [sawToolCall], [usage],
    [finishReason] and [activeTextId]. *)
Record StreamState := {
  responseId : option string;
  sawToolCall : bool;
  usage : option Usage;
  finishReason : option FinishReason;
  activeTextId : option string;
}.

Definition initialState : StreamState :=
  {| responseId := None; sawToolCall := false; usage := None;
     finishReason := None; activeTextId := None |}.

Definition set_responseId (v : option string) (st : StreamState) : StreamState :=
  {| responseId := v; sawToolCall := sawToolCall st; usage := usage st;
     finishReason := finishReason st; activeTextId := activeTextId st |}.

Definition set_sawToolCall (v : bool) (st : StreamState) : StreamState :=
  {| responseId := responseId st; sawToolCall := v; usage := usage st;
     finishReason := finishReason st; activeTextId := activeTextId st |}.

Definition set_usage (v : option Usage) (st : StreamState) : StreamState :=
  {| responseId := responseId st; sawToolCall := sawToolCall st; usage := v;
     finishReason := finishReason st; activeTextId := activeTextId st |}.

Definition set_finishReason (v : option FinishReason) (st : StreamState) : StreamState :=
  {| responseId := responseId st; sawToolCall := sawToolCall st; usage := usage st;
     finishReason := v; activeTextId := activeTextId st |}.

Definition set_activeTextId (v : option string) (st : StreamState) : StreamState :=
  {| responseId := responseId st; sawToolCall := sawToolCall st; usage := usage st;
     finishReason := finishReason st; activeTextId := v |}.

(** ** The provider factory ([createOpenClaw]) *)

(** [OpenClawProviderSettings]; [fetch] and [generateId] are handed on
    untouched and left out. *)
Record OpenClawProviderSettings := {
  set_apiKey : option string;
  set_baseURL : option string;
  set_headers : option (gmap string string);
  set_providerName : option string;
}.

(** [a ?? b] when [b] may be [undefined] too. *)
Definition orElse {A : Type} (a b : option A) : option A :=
  match a with
  | Some x => Some x
  | None => b
  end.

Definition DEFAULT_BASE_URL : string := "http://localhost:18789/v1".

(** [process.env] is the map [env]. *)
Definition resolve_apiKey (settings : OpenClawProviderSettings)
    (env : gmap string string) : option string :=
  orElse (orElse (orElse (set_apiKey settings) (env !! "OPENCLAW_API_KEY"))
            (env !! "OPENCLAW_TOKEN"))
    (env !! "CLAWDBOT_TOKEN").

Definition resolve_baseURL (settings : OpenClawProviderSettings)
    (env : gmap string string) : string :=
  nullish
    (orElse (orElse (set_baseURL settings) (env !! "OPENCLAW_BASE_URL"))
       (env !! "CLAWDBOT_BASE_URL"))
    DEFAULT_BASE_URL.

Definition resolve_providerName (settings : OpenClawProviderSettings) : string :=
  nullish (set_providerName settings) "openclaw.responses".

(** The [headers] thunk of the configuration, called. *)
Definition provider_headers (settings : OpenClawProviderSettings)
    (env : gmap string string) : gmap string string :=
  let out := nullish (set_headers settings) ∅ in
  match resolve_apiKey settings env with
  | Some apiKey =>
      if truthy apiKey then <["Authorization" := "Bearer " +:+ apiKey]> out
      else out
  | None => out
  end.

(** The [config] object handed to the language model. *)
Record OpenClawResponsesConfig := {
  cfg_baseURL : string;
  cfg_headers : gmap string string;
  cfg_providerName : string;
}.

Definition createOpenClaw (settings : OpenClawProviderSettings)
    (env : gmap string string) : OpenClawResponsesConfig :=
  {| cfg_baseURL := resolve_baseURL settings env;
     cfg_headers := provider_headers settings env;
     cfg_providerName := resolve_providerName settings |}.

(** [value.replace(/\/$/, "")]: one slash is removed, and only at the very
    end. *)
Fixpoint strip_trailing_slash (value : string) : string :=
  match value with
  | EmptyString => EmptyString
  | String c rest =>
      match rest with
      | EmptyString => if decide (c = "/"%char) then EmptyString else value
      | String _ _ => String c (strip_trailing_slash rest)
      end
  end.

(** The [url] of [doGenerate] and [doStream]. *)
Definition responses_url (baseURL : string) : string :=
  strip_trailing_slash baseURL +:+ "/responses".

(** ** Provider options and request headers *)

(** [openclawProviderOptionsSchema], once parsed. *)
Record OpenClawProviderOptions := {
  po_instructions : option string;
  po_user : option string;
  po_reasoningEffort : option string;
  po_reasoningSummary : option string;
  po_metadata : option (gmap string string);
  po_maxToolCalls : option Z;
  po_sessionKey : option string;
  po_agentId : option string;
}.

(** [providerOptions?.field] on a string field. *)
Definition optional_field (providerOptions : option OpenClawProviderOptions)
    (field : OpenClawProviderOptions -> option string) : option string :=
  match providerOptions with
  | Some options => field options
  | None => None
  end.

(** The object [extra] of [buildHeaders]. *)
Definition extra_headers (providerOptions : option OpenClawProviderOptions)
    : gmap string string :=
  let extra : gmap string string := ∅ in
  let extra :=
    match optional_field providerOptions po_sessionKey with
    | Some sessionKey =>
        if truthy sessionKey then <["x-openclaw-session-key" := sessionKey]> extra
        else extra
    | None => extra
    end in
  match optional_field providerOptions po_agentId with
  | Some agentId =>
      if truthy agentId then <["x-openclaw-agent-id" := agentId]> extra
      else extra
  | None => extra
  end.

(** ** Tool choice ([mapToolChoice]) *)

Inductive ToolChoice :=
| ChoiceAuto
| ChoiceNone
| ChoiceRequired
| ChoiceTool (toolName : string).

Inductive OpenClawToolChoice :=
| ChoiceLiteral (value : string)
| ChoiceFunction (name : string).

Definition mapToolChoice (toolChoice : option ToolChoice) : option OpenClawToolChoice :=
  match toolChoice with
  | None => None
  | Some ChoiceAuto => Some (ChoiceLiteral "auto")
  | Some ChoiceNone => Some (ChoiceLiteral "none")
  | Some ChoiceRequired => Some (ChoiceLiteral "required")
  | Some (ChoiceTool toolName) => Some (ChoiceFunction toolName)
  end.

(** ** The content of a generated response ([doGenerate]) *)

Inductive ContentEntry :=
| TextContent (text : string) (providerMetadata : ProviderMetadata)
| ToolCallContent (toolCallId toolName input : string)
    (providerMetadata : ProviderMetadata)
| ReasoningContent (text : string) (providerMetadata : ProviderMetadata).

(** One iteration of [for (const item of response.output)], on the pair of
    [content] and [sawToolCall]. *)
Definition generate_item (providerName : string) (item : OutputItem)
    (s : list ContentEntry * bool) : list ContentEntry * bool :=
  let '(content, sawToolCall) := s in
  match item with
  | ItemMessage id parts _ =>
      (fold_left
         (fun content text =>
            content ++ [TextContent text (itemMetadata providerName id)])
         parts content,
       sawToolCall)
  | ItemFunctionCall id call_id name arguments _ =>
      (content ++
         [ToolCallContent call_id name arguments (itemMetadata providerName id)],
       true)
  | ItemReasoning id content_ summary =>
      match (match summary with Some t => Some t | None => content_ end) with
      | Some text =>
          if truthy text then
            (content ++ [ReasoningContent text (itemMetadata providerName id)],
             sawToolCall)
          else (content, sawToolCall)
      | None => (content, sawToolCall)
      end
  end.

(** The loop over [response.output], from an empty [content] and a false
    [sawToolCall]. *)
Definition generate_content (providerName : string) (output : list OutputItem)
    : list ContentEntry * bool :=
  fold_left (fun s item => generate_item providerName item s) output ([], false).

(** ** Sample values for the examples *)

Definition sample_usage : OpenClawUsage :=
  {| input_tokens := 12; output_tokens := 5; total_tokens := 17 |}.

Definition sample_response (status : string) : OpenClawResponse :=
  {| resp_id := "resp_1"; resp_created_at := 1700000000;
     resp_status := status; resp_model := "openclaw:main";
     resp_output := []; resp_usage := sample_usage; resp_error := None |}.

Definition sample_config (includeRaw : bool) : StreamConfig :=
  {| providerName := "openclaw"; responseHeaders := ∅;
     includeRawChunks := includeRaw; warnings := [] |}.

Section Provider.

(** Values of type [unknown], the error object of a failed parse, and the
    two host functions the translation calls. *)
Context {JSON ParseError : Type}.
Variable JSON_stringify : JSON -> string.
Variable convertToBase64 : list Byte.byte -> string.

(** *** The stream reconstructor of [doStream] *)

(** A chunk of the event source: a [ParseResult] of the event schema. *)
Inductive Chunk :=
| ChunkSuccess (value : StreamEvent) (rawValue : JSON)
| ChunkFailure (error : ParseError) (rawValue : JSON).

(** The normalized stream parts the transform enqueues. *)
Inductive StreamPart :=
| StreamStart (warnings : list Warning)
| RawChunk (rawValue : JSON)
| ErrorPart (error : ParseError)
| ResponseMetadata (id : string) (timestamp : Z) (modelId : string)
    (headers : gmap string string)
| TextStart (id : string)
| TextDelta (id delta : string)
| TextEnd (id : string)
| ToolCall (toolCallId toolName input : string) (providerMetadata : ProviderMetadata)
| ReasoningStart (id : string)
| ReasoningDelta (id delta : string)
| ReasoningEnd (id : string)
| Finish (usage : Usage) (finishReason : FinishReason)
    (providerMetadata : option ProviderMetadata).

(** The controller: the parts enqueued so far, oldest first. *)
Definition Controller : Type := list StreamPart.

Definition enqueue (part : StreamPart) (controller : Controller) : Controller :=
  (controller ++ [part])%list.

(** [start(controller)]. *)
Definition start (cfg : StreamConfig) (controller : Controller) : Controller :=
  enqueue (StreamStart (warnings cfg)) controller.

(** The [response.output_item.added] / [.done] case. *)
Definition transform_item (cfg : StreamConfig) (item : OutputItem)
    (s : StreamState * Controller) : StreamState * Controller :=
  let '(st, controller) := s in
  match item with
  | ItemFunctionCall id call_id name arguments _ =>
      (set_sawToolCall true st,
       enqueue (ToolCall call_id name arguments
                  (itemMetadata (providerName cfg) id)) controller)
  | ItemReasoning id content summary =>
      match (match summary with Some t => Some t | None => content end) with
      | Some text =>
          if truthy text then
            (st, enqueue (ReasoningEnd id)
                   (enqueue (ReasoningDelta id text)
                      (enqueue (ReasoningStart id) controller)))
          else (st, controller)
      | None => (st, controller)
      end
  | ItemMessage _ _ _ => (st, controller)
  end.

(** The [switch (event.type)] of [transform]. *)
Definition transform_event (cfg : StreamConfig) (event : StreamEvent)
    (s : StreamState * Controller) : StreamState * Controller :=
  let '(st, controller) := s in
  match event with
  | ResponseCreated response =>
      (set_responseId (Some (resp_id response)) st,
       enqueue (ResponseMetadata (resp_id response)
                  (resp_created_at response * 1000)
                  (resp_model response) (responseHeaders cfg)) controller)
  | OutputTextDelta item_id _ _ delta =>
      (* [if (!activeTextId) { activeTextId = item_id; enqueue text-start }],
         then [text-delta] with the id now held in [activeTextId] *)
      match activeTextId st with
      | Some id =>
          if truthy id then (st, enqueue (TextDelta id delta) controller)
          else (set_activeTextId (Some item_id) st,
                enqueue (TextDelta item_id delta)
                  (enqueue (TextStart item_id) controller))
      | None =>
          (set_activeTextId (Some item_id) st,
           enqueue (TextDelta item_id delta)
             (enqueue (TextStart item_id) controller))
      end
  | OutputItemAdded _ item | OutputItemDone _ item =>
      transform_item cfg item (st, controller)
  | ResponseCompleted response | ResponseFailed response =>
      (set_finishReason
         (Some (mapFinishReason (resp_status response) (sawToolCall st)))
         (set_usage (Some (mapUsage (resp_usage response))) st),
       controller)
  | ResponseInProgress _ | OutputTextDone _ _ _ _
  | ContentPartAdded _ _ _ _ | ContentPartDone _ _ _ _ => (st, controller)
  end.

(** [transform(chunk, controller)]. *)
Definition transform (cfg : StreamConfig) (chunk : Chunk)
    (s : StreamState * Controller) : StreamState * Controller :=
  let '(st, controller) := s in
  let rawValue := match chunk with ChunkSuccess _ r | ChunkFailure _ r => r end in
  let controller :=
    if includeRawChunks cfg then enqueue (RawChunk rawValue) controller
    else controller in
  match chunk with
  | ChunkFailure error _ =>
      (set_finishReason (Some {| unified := "error"; raw := "error" |}) st,
       enqueue (ErrorPart error) controller)
  | ChunkSuccess event _ => transform_event cfg event (st, controller)
  end.

(** [flush(controller)]. *)
Definition flush (cfg : StreamConfig) (s : StreamState * Controller) : Controller :=
  let '(st, controller) := s in
  let controller :=
    match activeTextId st with
    | Some id => if truthy id then enqueue (TextEnd id) controller else controller
    | None => controller
    end in
  match usage st with
  | None => controller
  | Some u =>
      enqueue
        (Finish u
           (nullish (finishReason st) {| unified := "other"; raw := "unknown" |})
           (match responseId st with
            | Some rid =>
                if truthy rid then Some (responseMetadata (providerName cfg) rid)
                else None
            | None => None
            end))
        controller
  end.

(** The transform fed with the chunks in arrival order. *)
Definition transform_all (cfg : StreamConfig) (chunks : list Chunk)
    (s : StreamState * Controller) : StreamState * Controller :=
  fold_left (fun s chunk => transform cfg chunk s) chunks s.

(** Everything the readable side of the [TransformStream] delivers when the
    event source produces [chunks] and then closes: [start], one [transform]
    per chunk, [flush]. *)
Definition doStream_events (cfg : StreamConfig) (chunks : list Chunk) : list StreamPart :=
  flush cfg (transform_all cfg chunks (initialState, start cfg [])).

(** The [type] field of a stream part. *)
Definition part_type (p : StreamPart) : string :=
  match p with
  | StreamStart _ => "stream-start"
  | RawChunk _ => "raw"
  | ErrorPart _ => "error"
  | ResponseMetadata _ _ _ _ => "response-metadata"
  | TextStart _ => "text-start"
  | TextDelta _ _ => "text-delta"
  | TextEnd _ => "text-end"
  | ToolCall _ _ _ _ => "tool-call"
  | ReasoningStart _ => "reasoning-start"
  | ReasoningDelta _ _ => "reasoning-delta"
  | ReasoningEnd _ => "reasoning-end"
  | Finish _ _ _ => "finish"
  end.

(** *** The normalized prompt

    The parts and messages of a [LanguageModelV3Prompt], with the two
    liberties the code takes: a [developer] role is accepted next to
    [system], and [normalizeContentParts] accepts a content that is either a
    plain string or an array of parts. *)

(** [part.data]: a [URL] object, a string, or a [Uint8Array]. *)
Inductive FileData :=
| DataURL (href : string)
| DataString (data : string)
| DataBytes (bytes : list Byte.byte).

(** [LanguageModelV3ToolResultPart["output"]], by its [type] tag.
    [OutputOther] is a payload whose tag is none of the six the [switch]
    names; it carries the whole payload object. *)
Inductive ToolOutput :=
| OutputText (value : string)
| OutputErrorText (value : string)
| OutputJson (value : JSON)
| OutputErrorJson (value : JSON)
| OutputExecutionDenied (reason : option string)
| OutputContent (value : JSON)
| OutputOther (payload : JSON).

Inductive Part :=
| TextPart (text : string)
| FilePart (mediaType : string) (data : FileData) (filename : option string)
| ToolCallPart (toolCallId toolName input : string)
| ReasoningPart (text : string)
| ToolResultPart (toolCallId toolName : string) (output : ToolOutput).

(** The parts of a tool message. *)
Inductive ToolPart :=
| ToolResult (toolCallId toolName : string) (output : ToolOutput)
| ToolApprovalResponse (approvalId : string) (approved : bool) (reason : option string).

Inductive Content :=
| ContentString (text : string)
| ContentParts (parts : list Part).

Inductive Message :=
| SystemMessage (content : Content)
| DeveloperMessage (content : Content)
| UserMessage (content : Content)
| AssistantMessage (content : Content)
| ToolMessage (content : list ToolPart).

(** [message.role]. *)
Definition role (message : Message) : string :=
  match message with
  | SystemMessage _ => "system"
  | DeveloperMessage _ => "developer"
  | UserMessage _ => "user"
  | AssistantMessage _ => "assistant"
  | ToolMessage _ => "tool"
  end.

(** *** The vendor input items ([OpenClawInputItem]) *)

Inductive ImageSource :=
| ImageUrl (url : string)
| ImageBase64 (media_type data : string).

Inductive FileSource :=
| FileUrl (url : string)
| FileBase64 (media_type data : string) (filename : option string).

Inductive InputPart :=
| InputText (text : string)
| OutputText_ (text : string)
| InputImage (source : ImageSource)
| InputFile (source : FileSource).

Inductive MessageContent :=
| PlainText (text : string)
| Parts (parts : list InputPart).

Inductive InputItem :=
| MessageItem (role : string) (content : MessageContent)
| FunctionCallItem (call_id name arguments : string)
| FunctionCallOutputItem (call_id output : string)
| ReasoningItem (content : string).

(** *** Prompt-to-input translation *)

Definition toToolOutputString (output : ToolOutput) : string :=
  match output with
  | OutputText value | OutputErrorText value => value
  | OutputJson value | OutputErrorJson value => JSON_stringify value
  | OutputExecutionDenied reason => nullish reason "Tool execution denied."
  | OutputContent value => JSON_stringify value
  | OutputOther payload => JSON_stringify payload
  end.

(** ASCII lower-casing, for the [i] flag of the regular expression. *)
Definition ascii_lower (c : ascii) : ascii :=
  let n := nat_of_ascii c in
  if (Nat.leb 65 n && Nat.leb n 90)%bool then ascii_of_nat (n + 32) else c.

Fixpoint lower (s : string) : string :=
  match s with
  | EmptyString => EmptyString
  | String c rest => String (ascii_lower c) (lower rest)
  end.

(** [/^https?:\/\//i.test(value)]. *)
Definition isHttpUrl (value : string) : bool :=
  String.prefix "http://" (lower value) || String.prefix "https://" (lower value).

Definition normalizeContentParts (content : Content) : list Part :=
  match content with
  | ContentParts parts => parts
  | ContentString text => [TextPart text]
  end.

(** The line feed of [join("\n")]. *)
Definition LF : string := String (ascii_of_nat 10) EmptyString.

(** [Array.prototype.join]. *)
Fixpoint join (sep : string) (l : list string) : string :=
  match l with
  | [] => ""
  | [x] => x
  | x :: rest => x +:+ sep +:+ join sep rest
  end.

Definition is_text (part : Part) : bool :=
  match part with TextPart _ => true | _ => false end.

(** [part.text]; of the text parts only, the others never reach it. *)
Definition part_text (part : Part) : string :=
  match part with
  | TextPart text | ReasoningPart text => text
  | _ => ""
  end.

(** The text a [system] or [developer] message contributes. *)
Definition system_text (content : Content) : string :=
  join LF (map part_text (List.filter is_text (normalizeContentParts content))).

(** One iteration of the loop over the parts of a [user] or [assistant]
    message, on the pair of [input] and [contentParts]. *)
Definition convertPart (assistant : bool) (part : Part)
    (s : list InputItem * list InputPart) : list InputItem * list InputPart :=
  let '(input, contentParts) := s in
  match part with
  | TextPart text =>
      (input, contentParts ++ [if assistant then OutputText_ text else InputText text])%list
  | FilePart mediaType data filename =>
      let mediaType :=
        if decide (mediaType = "image/*") then "image/jpeg" else mediaType in
      let isImage := String.prefix "image/" mediaType in
      match data with
      | DataURL href =>
          (input,
           contentParts ++
             [if isImage then InputImage (ImageUrl href) else InputFile (FileUrl href)])%list
      | DataString data =>
          if isHttpUrl data then
            (input,
             contentParts ++
               [if isImage then InputImage (ImageUrl data)
                else InputFile (FileUrl data)])%list
          else
            (input,
             contentParts ++
               [if isImage then InputImage (ImageBase64 mediaType data)
                else InputFile (FileBase64 mediaType data filename)])%list
      | DataBytes bytes =>
          let data := convertToBase64 bytes in
          (input,
           contentParts ++
             [if isImage then InputImage (ImageBase64 mediaType data)
              else InputFile (FileBase64 mediaType data filename)])%list
      end
  | ToolCallPart toolCallId toolName args =>
      (input ++ [FunctionCallItem toolCallId toolName args], contentParts)%list
  | ReasoningPart text =>
      (input ++ [ReasoningItem text], contentParts)%list
  | ToolResultPart _ _ _ => (input, contentParts)
  end.

(** One iteration of the loop over the parts of a [tool] message. *)
Definition convertToolPart (part : ToolPart) (input : list InputItem) : list InputItem :=
  match part with
  | ToolApprovalResponse _ _ _ => input
  | ToolResult toolCallId _ output =>
      (input ++ [FunctionCallOutputItem toolCallId (toToolOutputString output)])%list
  end.

(** The body of [for (const message of prompt)], on the array [input]. *)
Definition convertMessage (message : Message) (input : list InputItem) : list InputItem :=
  match message with
  | SystemMessage content | DeveloperMessage content =>
      let text := system_text content in
      if truthy text then
        (input ++ [MessageItem (role message) (PlainText text)])%list
      else input
  | UserMessage content | AssistantMessage content =>
      let assistant := bool_decide (role message = "assistant") in
      let '(input, contentParts) :=
        fold_left (fun s part => convertPart assistant part s)
          (normalizeContentParts content) (input, []) in
      if Nat.ltb 0 (length contentParts) then
        (input ++ [MessageItem (role message) (Parts contentParts)])%list
      else input
  | ToolMessage toolParts =>
      fold_left (fun input part => convertToolPart part input) toolParts input
  end.

(** The loop of [convertPromptToInput], started on any array. *)
Definition convertMessages (prompt : list Message) (input : list InputItem) : list InputItem :=
  fold_left (fun input message => convertMessage message input) prompt input.

Definition convertPromptToInput (prompt : list Message) : list InputItem :=
  convertMessages prompt [].

(** *** Tools *)

(** [LanguageModelV3FunctionTool | LanguageModelV3ProviderTool]. *)
Inductive Tool :=
| FunctionTool (name : string) (description : option string) (inputSchema : JSON)
| ProviderTool (id name : string) (args : JSON).

Definition is_function (tool : Tool) : bool :=
  match tool with FunctionTool _ _ _ => true | ProviderTool _ _ _ => false end.

Definition is_provider (tool : Tool) : bool :=
  match tool with ProviderTool _ _ _ => true | FunctionTool _ _ _ => false end.

(** [tool.name], [tool.description], [tool.inputSchema]. *)
Definition tool_name (tool : Tool) : string :=
  match tool with FunctionTool name _ _ | ProviderTool _ name _ => name end.

Definition tool_description (tool : Tool) : option string :=
  match tool with FunctionTool _ description _ => description | ProviderTool _ _ _ => None end.

Definition tool_inputSchema (tool : Tool) : option JSON :=
  match tool with FunctionTool _ _ schema => Some schema | ProviderTool _ _ _ => None end.

(** [{ type, function: { name, description, parameters } }]. *)
Record OpenClawFunction := {
  fn_name : string;
  fn_description : option string;
  fn_parameters : option JSON;
}.

Record OpenClawTool := {
  tool_type : string;
  tool_function : OpenClawFunction;
}.

Definition toOpenClawTool (tool : Tool) : OpenClawTool :=
  {| tool_type := "function";
     tool_function :=
       {| fn_name := tool_name tool;
          fn_description := tool_description tool;
          fn_parameters := tool_inputSchema tool |} |}.

Definition providerToolsWarning : Warning :=
  {| feature := "providerTools";
     details := Some "OpenClaw responses only support function tools" |}.

(** [mapTools(tools, warnings)]: the returned [tools] field of the request
    body ([None] is [undefined], an omitted field) and the [warnings] array
    after the call. *)
Definition mapTools (tools : option (list Tool)) (warnings : list Warning)
    : option (list OpenClawTool) * list Warning :=
  match tools with
  | None => (None, warnings)
  | Some tools =>
      if Nat.eqb (length tools) 0 then (None, warnings)
      else
        let functionTools := List.filter is_function tools in
        let providerTools := List.filter is_provider tools in
        let warnings :=
          if Nat.ltb 0 (length providerTools)
          then (warnings ++ [providerToolsWarning])%list
          else warnings in
        if Nat.eqb (length functionTools) 0 then (None, warnings)
        else (Some (map toOpenClawTool functionTools), warnings)
  end.

(** *** The request ([getArgs]) *)

(** The call options [getArgs] reads.  The sampling values are only tested
    for presence or handed on, so they are unknown values. *)
Record CallOptions := {
  opt_prompt : list Message;
  opt_tools : option (list Tool);
  opt_toolChoice : option ToolChoice;
  opt_temperature : option JSON;
  opt_topP : option JSON;
  opt_maxOutputTokens : option JSON;
  opt_topK : option JSON;
  opt_stopSequences : option (list string);
  opt_presencePenalty : option JSON;
  opt_frequencyPenalty : option JSON;
  opt_seed : option JSON;
  opt_responseFormat : option JSON;
}.

Record ReasoningBlock := {
  effort : option string;
  summary : option string;
}.

(** The request [body]; a field that is [None] is [undefined] and is left
    out of the JSON sent. *)
Record RequestBody := {
  body_model : string;
  body_input : list InputItem;
  body_temperature : option JSON;
  body_top_p : option JSON;
  body_max_output_tokens : option JSON;
  body_tools : option (list OpenClawTool);
  body_tool_choice : option OpenClawToolChoice;
  body_instructions : option string;
  body_user : option string;
  body_metadata : option (gmap string string);
  body_max_tool_calls : option Z;
  body_reasoning : option ReasoningBlock;
}.

(** [if (options.x != null) warnings.push({ type: "unsupported", feature })]. *)
Definition warn_unsupported {A : Type} (value : option A) (name : string)
    (warnings : list Warning) : list Warning :=
  match value with
  | Some _ => warnings ++ [{| feature := name; details := None |}]
  | None => warnings
  end.

(** [getArgs(options)], given what [parseProviderOptions] resolved to. *)
Definition getArgs (modelId : string) (options : CallOptions)
    (providerOptions : option OpenClawProviderOptions)
    : RequestBody * list Warning * option OpenClawProviderOptions :=
  let warnings : list Warning := [] in
  let warnings := warn_unsupported (opt_topK options) "topK" warnings in
  let warnings := warn_unsupported (opt_stopSequences options) "stopSequences" warnings in
  let warnings := warn_unsupported (opt_presencePenalty options) "presencePenalty" warnings in
  let warnings := warn_unsupported (opt_frequencyPenalty options) "frequencyPenalty" warnings in
  let warnings := warn_unsupported (opt_seed options) "seed" warnings in
  let warnings := warn_unsupported (opt_responseFormat options) "responseFormat" warnings in
  let input := convertPromptToInput (opt_prompt options) in
  let '(tools, warnings) := mapTools (opt_tools options) warnings in
  let toolChoice := mapToolChoice (opt_toolChoice options) in
  let body :=
    {| body_model := modelId;
       body_input := input;
       body_temperature := opt_temperature options;
       body_top_p := opt_topP options;
       body_max_output_tokens := opt_maxOutputTokens options;
       body_tools := tools;
       body_tool_choice := toolChoice;
       body_instructions := optional_field providerOptions po_instructions;
       body_user := optional_field providerOptions po_user;
       body_metadata :=
         match providerOptions with
         | Some po => po_metadata po
         | None => None
         end;
       body_max_tool_calls :=
         match providerOptions with
         | Some po => po_maxToolCalls po
         | None => None
         end;
       body_reasoning :=
         if truthy_opt (optional_field providerOptions po_reasoningEffort) ||
            truthy_opt (optional_field providerOptions po_reasoningSummary)
         then
           Some {| effort := optional_field providerOptions po_reasoningEffort;
                   summary := optional_field providerOptions po_reasoningSummary |}
         else None |} in
  (body, warnings, providerOptions).

(** *** The non-streaming call ([doGenerate]) *)

(** What [postJsonToApi] resolved to. *)
Record HttpResult := {
  http_responseHeaders : gmap string string;
  http_value : OpenClawResponse;
  http_rawValue : JSON;
}.

Record APICallError := {
  ace_message : string;
  ace_url : string;
  ace_requestBodyValues : RequestBody;
  ace_statusCode : Z;
  ace_responseHeaders : gmap string string;
  ace_responseBody : JSON;
  ace_isRetryable : bool;
}.

Record GenerateResult := {
  gr_content : list ContentEntry;
  gr_finishReason : FinishReason;
  gr_usage : Usage;
  gr_request_body : RequestBody;
  gr_response_id : string;
  gr_response_timestamp : Z;
  gr_response_modelId : string;
  gr_response_headers : gmap string string;
  gr_response_body : JSON;
  gr_providerMetadata : ProviderMetadata;
  gr_warnings : list Warning;
}.

(** [doGenerate(options)] from the point where the HTTP call has resolved:
    [inl] is the [APICallError] thrown, [inr] the value returned. *)
Definition doGenerate (modelId : string) (config : OpenClawResponsesConfig)
    (options : CallOptions) (providerOptions : option OpenClawProviderOptions)
    (http : HttpResult) : APICallError + GenerateResult :=
  let '(body, warnings, _) := getArgs modelId options providerOptions in
  let url := responses_url (cfg_baseURL config) in
  let response := http_value http in
  match resp_error response with
  | Some error =>
      inl {| ace_message := err_message error;
             ace_url := url;
             ace_requestBodyValues := body;
             ace_statusCode := 400;
             ace_responseHeaders := http_responseHeaders http;
             ace_responseBody := http_rawValue http;
             ace_isRetryable := false |}
  | None =>
      let '(content, sawToolCall) :=
        generate_content (cfg_providerName config) (resp_output response) in
      let finishReason := mapFinishReason (resp_status response) sawToolCall in
      inr {| gr_content := content;
             gr_finishReason := finishReason;
             gr_usage := mapUsage (resp_usage response);
             gr_request_body := body;
             gr_response_id := resp_id response;
             gr_response_timestamp := resp_created_at response * 1000;
             gr_response_modelId := resp_model response;
             gr_response_headers := http_responseHeaders http;
             gr_response_body := http_rawValue http;
             gr_providerMetadata :=
               responseMetadata (cfg_providerName config) (resp_id response);
             gr_warnings := warnings |}
  end.

(** The stream configuration [doStream] builds for the same call. *)
Definition doStream_config (modelId : string) (config : OpenClawResponsesConfig)
    (options : CallOptions) (providerOptions : option OpenClawProviderOptions)
    (includeRaw : bool) (headers : gmap string string) : StreamConfig :=
  let '(_, warnings, _) := getArgs modelId options providerOptions in
  {| providerName := cfg_providerName config;
     responseHeaders := headers;
     includeRawChunks := includeRaw;
     warnings := warnings |}.

(** *** Views of a run used to state its properties *)

(** The response of the last [response.completed] or [response.failed]
    event that passed validation, if any. *)
Definition terminal_response (chunk : Chunk) : option OpenClawResponse :=
  match chunk with
  | ChunkSuccess (ResponseCompleted response) _
  | ChunkSuccess (ResponseFailed response) _ => Some response
  | _ => None
  end.

Fixpoint last_terminal (chunks : list Chunk) : option OpenClawResponse :=
  match chunks with
  | [] => None
  | chunk :: rest =>
      match last_terminal rest with
      | Some response => Some response
      | None => terminal_response chunk
      end
  end.

(** The item ids of the [response.output_text.delta] events, in order. *)
Definition delta_item_id (chunk : Chunk) : option string :=
  match chunk with
  | ChunkSuccess (OutputTextDelta item_id _ _ _) _ => Some item_id
  | _ => None
  end.

Definition delta_item_ids (chunks : list Chunk) : list string :=
  omap delta_item_id chunks.

(** How many parts of a given [type] a stream holds. *)
Definition count_type (ty : string) (parts : list StreamPart) : nat :=
  length (List.filter (fun p => bool_decide (part_type p = ty)) parts).

(** The ids carried by the [text-delta] parts, and their deltas. *)
Definition text_delta_ids (parts : list StreamPart) : list string :=
  omap (fun p => match p with TextDelta id _ => Some id | _ => None end) parts.

Definition text_deltas (parts : list StreamPart) : list string :=
  omap (fun p => match p with TextDelta _ delta => Some delta | _ => None end) parts.

(** What one part of a [user] or [assistant] message contributes: items
    pushed on [input] directly, and parts pushed on [contentParts]. *)
Definition top_level_items (part : Part) : list InputItem :=
  match part with
  | ToolCallPart toolCallId toolName args => [FunctionCallItem toolCallId toolName args]
  | ReasoningPart text => [ReasoningItem text]
  | _ => []
  end.

Definition content_parts (assistant : bool) (part : Part) : list InputPart :=
  snd (convertPart assistant part ([], [])).

(** A message item has a content: a non-empty text or at least one part. *)
Definition has_content (item : InputItem) : Prop :=
  match item with
  | MessageItem _ (PlainText text) => text <> ""
  | MessageItem _ (Parts parts) => parts <> []
  | _ => True
  end.

(** What a chunk carries: its raw value, the error of a failed parse, the
    delta of a text delta event, the item of an item event. *)
Definition chunk_rawValue (chunk : Chunk) : JSON :=
  match chunk with ChunkSuccess _ rawValue | ChunkFailure _ rawValue => rawValue end.

Definition chunk_error (chunk : Chunk) : option ParseError :=
  match chunk with ChunkFailure error _ => Some error | ChunkSuccess _ _ => None end.

Definition chunk_delta (chunk : Chunk) : option string :=
  match chunk with
  | ChunkSuccess (OutputTextDelta _ _ _ delta) _ => Some delta
  | _ => None
  end.

Definition chunk_item (chunk : Chunk) : option OutputItem :=
  match chunk with
  | ChunkSuccess (OutputItemAdded _ item) _
  | ChunkSuccess (OutputItemDone _ item) _ => Some item
  | _ => None
  end.

Definition is_function_call (item : OutputItem) : bool :=
  match item with ItemFunctionCall _ _ _ _ _ => true | _ => false end.

(** Whether some item event among the chunks carries a function call. *)
Definition has_function_call (chunks : list Chunk) : bool :=
  existsb (fun chunk =>
             match chunk_item chunk with
             | Some item => is_function_call item
             | None => false
             end) chunks.

(** The id and text of a reasoning item that has a non-empty text, the
    summary first. *)
Definition reasoning_text (item : OutputItem) : option (string * string) :=
  match item with
  | ItemReasoning id content summary =>
      match summary, content with
      | Some text, _ | None, Some text =>
          if truthy text then Some (id, text) else None
      | None, None => None
      end
  | _ => None
  end.

(** The tool call of a function call item, as a call id, a name, the
    arguments and the item id. *)
Definition function_call (item : OutputItem) : option (string * string * string * string) :=
  match item with
  | ItemFunctionCall id call_id name arguments _ => Some (call_id, name, arguments, id)
  | _ => None
  end.

(** The same, of the item a chunk carries. *)
Definition chunk_function_call (chunk : Chunk) : option (string * string * string * string) :=
  match chunk_item chunk with
  | Some item => function_call item
  | None => None
  end.


(** The content entries one output item contributes in [doGenerate]. *)
Definition item_entries (providerName : string) (item : OutputItem) : list ContentEntry :=
  match item with
  | ItemMessage id parts _ =>
      map (fun text => TextContent text (itemMetadata providerName id)) parts
  | ItemFunctionCall id call_id name arguments _ =>
      [ToolCallContent call_id name arguments (itemMetadata providerName id)]
  | ItemReasoning id _ _ =>
      match reasoning_text item with
      | Some (_, text) => [ReasoningContent text (itemMetadata providerName id)]
      | None => []
      end
  end.

(** A tool-call part of the stream as a content entry. *)
Definition tool_call_entry (p : StreamPart) : option ContentEntry :=
  match p with
  | ToolCall toolCallId toolName input providerMetadata =>
      Some (ToolCallContent toolCallId toolName input providerMetadata)
  | _ => None
  end.

(** The parts of a stream, by kind. *)
Definition raw_values (parts : list StreamPart) : list JSON :=
  omap (fun p => match p with RawChunk rawValue => Some rawValue | _ => None end) parts.

Definition error_values (parts : list StreamPart) : list ParseError :=
  omap (fun p => match p with ErrorPart error => Some error | _ => None end) parts.

Definition tool_call_parts (parts : list StreamPart) : list StreamPart :=
  List.filter (fun p => match p with ToolCall _ _ _ _ => true | _ => false end) parts.


(** The tool-call entries of a generated content. *)
Definition tool_call_entries (content : list ContentEntry) : list ContentEntry :=
  List.filter (fun e => match e with ToolCallContent _ _ _ _ => true | _ => false end)
    content.

(** A part that is neither [finish] nor [text-end] nor [stream-start]: the
    kinds [transform] enqueues. *)
Definition mid_stream (p : StreamPart) : Prop :=
  part_type p <> "finish" /\ part_type p <> "text-end" /\
  part_type p <> "stream-start".

(** The fallback of [finishReason ?? ...] in [flush]. *)
Definition unknownFinishReason : FinishReason :=
  {| unified := "other"; raw := "unknown" |}.

(** ** Properties *)

(** *** The finish-reason policy *)

(** C2. For every status string and every value of the saw-tool-call flag:
    the unified reason is "tool-calls" whenever a tool call was seen or the
    status is "incomplete"; otherwise "completed" gives "stop", "failed"
    gives "error", and any other status gives "other" with the status itself
    in the raw field. *)
Theorem mapFinishReason_policy (status : string) (saw : bool) :
  (saw = true \/ status = "incomplete" ->
   unified (mapFinishReason status saw) = "tool-calls") /\
  (saw = false -> status <> "incomplete" ->
   (status = "completed" -> unified (mapFinishReason status saw) = "stop") /\
   (status = "failed" -> unified (mapFinishReason status saw) = "error") /\
   (status <> "completed" -> status <> "failed" ->
    mapFinishReason status saw = {| unified := "other"; raw := status |})).
Proof.
  unfold mapFinishReason. split.
  - intros [-> | ->]; [reflexivity|].
    rewrite bool_decide_eq_true_2 by reflexivity.
    now rewrite orb_true_r.
  - intros -> Hinc. rewrite bool_decide_eq_false_2 by assumption. simpl.
    repeat split.
    + intros ->. reflexivity.
    + intros ->. reflexivity.
    + intros Hc Hf. repeat case_decide; congruence.
Qed.

(** *** The transform only appends to the controller *)

Lemma transform_item_frame cfg item st controller :
  transform_item cfg item (st, controller) =
  (fst (transform_item cfg item (st, [])),
   controller ++ snd (transform_item cfg item (st, []))).
Proof.
  unfold transform_item, enqueue.
  destruct item as [| |id content [text|]]; simpl;
    rewrite ?List.app_nil_r; try reflexivity.
  - destruct (truthy text); simpl; rewrite <- ?List.app_assoc, ?List.app_nil_r; reflexivity.
  - destruct content as [text|]; [|now rewrite List.app_nil_r].
    destruct (truthy text); simpl; rewrite <- ?List.app_assoc, ?List.app_nil_r; reflexivity.
Qed.

Lemma transform_event_frame cfg event st controller :
  transform_event cfg event (st, controller) =
  (fst (transform_event cfg event (st, [])),
   controller ++ snd (transform_event cfg event (st, []))).
Proof.
  destruct event; simpl; unfold enqueue;
    rewrite ?List.app_nil_r; try reflexivity;
    try apply transform_item_frame.
  destruct (activeTextId st) as [id|]; [destruct (truthy id)|];
    simpl; rewrite <- ?List.app_assoc; reflexivity.
Qed.

Lemma transform_frame cfg chunk st controller :
  transform cfg chunk (st, controller) =
  (fst (transform cfg chunk (st, [])),
   controller ++ snd (transform cfg chunk (st, []))).
Proof.
  unfold transform, enqueue.
  destruct chunk as [event rawValue|error rawValue];
    destruct (includeRawChunks cfg); cbn -[transform_event].
  - rewrite transform_event_frame.
    rewrite (transform_event_frame cfg event st [RawChunk rawValue]).
    cbn [fst snd]. now rewrite List.app_assoc.
  - apply transform_event_frame.
  - now rewrite <- List.app_assoc.
  - reflexivity.
Qed.

Lemma transform_all_frame cfg chunks st controller :
  transform_all cfg chunks (st, controller) =
  (fst (transform_all cfg chunks (st, [])),
   controller ++ snd (transform_all cfg chunks (st, []))).
Proof.
  revert st controller.
  induction chunks as [|chunk chunks IH]; intros st controller.
  - simpl. now rewrite List.app_nil_r.
  - unfold transform_all in *. cbn [fold_left].
    rewrite transform_frame.
    destruct (transform cfg chunk (st, [])) as [st1 out1] eqn:E1. cbn [fst snd].
    rewrite IH. rewrite (IH st1 out1). cbn [fst snd]. now rewrite List.app_assoc.
Qed.

Lemma flush_frame cfg st controller :
  flush cfg (st, controller) = controller ++ flush cfg (st, []).
Proof.
  unfold flush, enqueue.
  destruct (activeTextId st) as [id|]; [destruct (truthy id)|];
    destruct (usage st); simpl; rewrite <- ?List.app_assoc, ?List.app_nil_r; reflexivity.
Qed.

(** The stream is what [start] enqueued, then what the chunks produced, then
    what [flush] added. *)
Lemma doStream_events_split cfg chunks :
  doStream_events cfg chunks =
  StreamStart (warnings cfg) ::
    snd (transform_all cfg chunks (initialState, [])) ++
    flush cfg (fst (transform_all cfg chunks (initialState, [])), []).
Proof.
  unfold doStream_events, start, enqueue. cbn [app].
  rewrite transform_all_frame.
  destruct (transform_all cfg chunks (initialState, [])) as [st out].
  cbn [fst snd]. rewrite flush_frame. reflexivity.
Qed.

(** *** What the chunks leave in the state *)

Lemma truthy_true s : truthy s = true <-> s <> "".
Proof. unfold truthy. case_decide; split; congruence. Qed.

Lemma truthy_false s : truthy s = false <-> s = "".
Proof. unfold truthy. case_decide; split; congruence. Qed.

Lemma transform_item_state cfg item st controller :
  let st' := fst (transform_item cfg item (st, controller)) in
  usage st' = usage st /\ finishReason st' = finishReason st /\
  activeTextId st' = activeTextId st /\ responseId st' = responseId st.
Proof.
  destruct item as [| |id content [text|]]; simpl; auto.
  - destruct (truthy text); simpl; auto.
  - destruct content as [text|]; [destruct (truthy text)|]; simpl; auto.
Qed.

(** [usage] is written by the terminal events only. *)
Lemma transform_usage cfg chunk st controller :
  usage (fst (transform cfg chunk (st, controller))) =
  match terminal_response chunk with
  | Some response => Some (mapUsage (resp_usage response))
  | None => usage st
  end.
Proof.
  destruct chunk as [event rawValue|error rawValue]; [|reflexivity].
  unfold transform. cbn -[transform_item].
  destruct event; cbn -[transform_item]; try reflexivity;
    try apply transform_item_state.
  destruct (activeTextId st) as [id|]; [destruct (truthy id)|]; reflexivity.
Qed.

Lemma transform_all_usage cfg chunks st controller :
  usage (fst (transform_all cfg chunks (st, controller))) =
  match last_terminal chunks with
  | Some response => Some (mapUsage (resp_usage response))
  | None => usage st
  end.
Proof.
  revert st controller.
  induction chunks as [|chunk chunks IH]; intros st controller; [reflexivity|].
  unfold transform_all in *. cbn [fold_left last_terminal].
  destruct (transform cfg chunk (st, controller)) as [st1 out1] eqn:E1.
  rewrite IH. destruct (last_terminal chunks); [reflexivity|].
  change st1 with (fst (st1, out1)). rewrite <- E1. apply transform_usage.
Qed.

Lemma transform_item_mid_stream cfg item st :
  Forall mid_stream (snd (transform_item cfg item (st, []))).
Proof.
  destruct item as [| |id content [text|]]; simpl;
    [constructor|repeat constructor; discriminate| |].
  - destruct (truthy text); simpl; repeat constructor; discriminate.
  - destruct content as [text|]; [destruct (truthy text)|]; simpl;
      repeat constructor; discriminate.
Qed.

Lemma transform_event_mid_stream cfg event st :
  Forall mid_stream (snd (transform_event cfg event (st, []))).
Proof.
  destruct event; cbn -[transform_item];
    try apply transform_item_mid_stream;
    try (repeat constructor; discriminate).
  destruct (activeTextId st) as [id|]; [destruct (truthy id)|]; simpl;
    repeat constructor; discriminate.
Qed.

Lemma transform_mid_stream cfg chunk st :
  Forall mid_stream (snd (transform cfg chunk (st, []))).
Proof.
  unfold transform, enqueue.
  destruct chunk as [event rawValue|error rawValue];
    destruct (includeRawChunks cfg); cbn -[transform_event].
  - rewrite transform_event_frame. cbn [snd]. apply Forall_app. split.
    + repeat constructor; discriminate.
    + apply transform_event_mid_stream.
  - apply transform_event_mid_stream.
  - repeat constructor; discriminate.
  - repeat constructor; discriminate.
Qed.

Lemma transform_all_mid_stream cfg chunks st :
  Forall mid_stream (snd (transform_all cfg chunks (st, []))).
Proof.
  revert st. induction chunks as [|chunk chunks IH]; intros st; [constructor|].
  unfold transform_all in *. cbn [fold_left].
  destruct (transform cfg chunk (st, [])) as [st1 out1] eqn:E1.
  fold (transform_all cfg chunks (st1, out1)).
  rewrite transform_all_frame. cbn [snd]. apply Forall_app. split.
  - change out1 with (snd (st1, out1)). rewrite <- E1. apply transform_mid_stream.
  - apply IH.
Qed.

(** *** The end of the stream *)

(** The end of the stream, read off the state the chunks leave.  [flush]
    appends to what the chunks produced (which holds no text-end and no
    finish part) a closing part and a finishing part.  The closing part is
    the text-end of the in-flight segment id when that id is a non-empty
    string, and nothing when it is missing or the empty string.  If no
    [response.completed] or [response.failed] event passed validation, usage
    was never captured and nothing more is emitted: the stream holds no
    finish part.  Otherwise one finish part is emitted, with the usage of
    the last such event, the finish reason of the state (or the
    other/unknown fallback), and the response-id metadata when a non-empty
    response id was recorded. *)
Theorem flush_finish_policy (cfg : StreamConfig) (chunks : list Chunk) :
  let st := fst (transform_all cfg chunks (initialState, [])) in
  let produced :=
    StreamStart (warnings cfg) :: snd (transform_all cfg chunks (initialState, [])) in
  exists closing finishing,
    doStream_events cfg chunks = produced ++ closing ++ finishing /\
    Forall (fun p => part_type p <> "finish" /\ part_type p <> "text-end") produced /\
    (forall id, activeTextId st = Some id -> id <> "" -> closing = [TextEnd id]) /\
    (activeTextId st = None \/ activeTextId st = Some "" -> closing = []) /\
    (last_terminal chunks = None ->
     usage st = None /\ finishing = [] /\
     count_type "finish" (doStream_events cfg chunks) = 0%nat) /\
    (forall response, last_terminal chunks = Some response ->
     exists metadata,
       usage st = Some (mapUsage (resp_usage response)) /\
       finishing =
         [Finish (mapUsage (resp_usage response))
            (nullish (finishReason st) unknownFinishReason) metadata] /\
       count_type "finish" (doStream_events cfg chunks) = 1%nat /\
       (forall rid, responseId st = Some rid -> rid <> "" ->
        metadata = Some (responseMetadata (providerName cfg) rid)) /\
       (responseId st = None \/ responseId st = Some "" -> metadata = None)).
Proof.
  intros st produced.
  assert (Hprod : Forall (fun p => part_type p <> "finish" /\ part_type p <> "text-end")
                    produced).
  { subst produced. constructor; [split; discriminate|].
    eapply List.Forall_impl; [|apply transform_all_mid_stream].
    intros p (Hf & He & _). split; assumption. }
  assert (Hcount : forall tail,
            count_type "finish" (produced ++ tail) = count_type "finish" tail).
  { intros tail. unfold count_type. rewrite List.filter_app, length_app.
    replace (List.filter (fun p => bool_decide (part_type p = "finish")) produced)
      with (@nil StreamPart); [reflexivity|].
    symmetry. clear -Hprod. induction produced as [|p ps IH]; [reflexivity|].
    inversion Hprod as [|? ? [Hp _] Hps]; subst. simpl.
    rewrite bool_decide_eq_false_2 by assumption. auto. }
  set (closing := match activeTextId st with
                  | Some id => if truthy id then [TextEnd id] else []
                  | None => []
                  end).
  set (finishing := flush cfg (set_activeTextId None st, [])).
  assert (Hsplit : doStream_events cfg chunks = produced ++ closing ++ finishing).
  { rewrite doStream_events_split. fold st. subst produced closing finishing.
    cbn [app]. f_equal. f_equal.
    unfold flush, enqueue. cbn [activeTextId usage finishReason responseId set_activeTextId].
    destruct (activeTextId st) as [id|]; [destruct (truthy id)|];
      destruct (usage st); reflexivity. }
  assert (Husage : usage st =
                   match last_terminal chunks with
                   | Some response => Some (mapUsage (resp_usage response))
                   | None => None
                   end) by apply transform_all_usage.
  exists closing, finishing. split; [exact Hsplit|]. split; [exact Hprod|].
  split; [|split; [|split]].
  - intros id Hid Hne. subst closing. rewrite Hid.
    apply truthy_true in Hne. now rewrite Hne.
  - intros [Hnone | Hempty]; subst closing.
    + now rewrite Hnone.
    + rewrite Hempty. reflexivity.
  - intros Hlast. rewrite Hlast in Husage. cbn in Husage.
    assert (Hfin : finishing = []).
    { subst finishing. unfold flush. cbn [activeTextId usage set_activeTextId].
      now rewrite Husage. }
    split; [exact Husage|]. split; [exact Hfin|].
    rewrite Hsplit, Hcount, Hfin, List.app_nil_r. subst closing.
    destruct (activeTextId st) as [id|]; [destruct (truthy id)|]; reflexivity.
  - intros response Hlast. rewrite Hlast in Husage.
    exists (match responseId st with
            | Some rid =>
                if truthy rid then Some (responseMetadata (providerName cfg) rid)
                else None
            | None => None
            end).
    assert (Hfin : finishing =
              [Finish (mapUsage (resp_usage response))
                 (nullish (finishReason st) unknownFinishReason)
                 (match responseId st with
                  | Some rid =>
                      if truthy rid
                      then Some (responseMetadata (providerName cfg) rid)
                      else None
                  | None => None
                  end)]).
    { subst finishing. unfold flush, enqueue.
      cbn [activeTextId usage finishReason responseId set_activeTextId].
      now rewrite Husage. }
    split; [exact Husage|]. split; [exact Hfin|]. split; [|split].
    + rewrite Hsplit, Hcount, Hfin. subst closing.
      destruct (activeTextId st) as [id|]; [destruct (truthy id)|]; reflexivity.
    + intros rid Hrid Hne. rewrite Hrid. apply truthy_true in Hne. now rewrite Hne.
    + intros [Hnone | Hempty]; [now rewrite Hnone|]. rewrite Hempty. reflexivity.
Qed.

(** *** A text response, start to finish *)

(** C1, as the code has it.  When raw chunks are not requested and the item
    id is not the empty string, the events [response.created], three
    [response.output_text.delta] with that item id, [response.completed]
    give: the stream-start part, then one response-metadata, one text-start,
    three text-delta, one text-end and one finish, in that order and nothing
    else; the deltas, concatenated, are the three event deltas in order. *)
Theorem text_stream_reconstruction (cfg : StreamConfig)
    (created completed : OpenClawResponse) (id d1 d2 d3 : string)
    (o1 c1 o2 c2 o3 c3 : Z) (r1 r2 r3 r4 r5 : JSON) :
  includeRawChunks cfg = false ->
  id <> "" ->
  let events :=
    doStream_events cfg
      [ChunkSuccess (ResponseCreated created) r1;
       ChunkSuccess (OutputTextDelta id o1 c1 d1) r2;
       ChunkSuccess (OutputTextDelta id o2 c2 d2) r3;
       ChunkSuccess (OutputTextDelta id o3 c3 d3) r4;
       ChunkSuccess (ResponseCompleted completed) r5] in
  events =
    [StreamStart (warnings cfg);
     ResponseMetadata (resp_id created) (resp_created_at created * 1000)
       (resp_model created) (responseHeaders cfg);
     TextStart id;
     TextDelta id d1; TextDelta id d2; TextDelta id d3;
     TextEnd id;
     Finish (mapUsage (resp_usage completed))
       (mapFinishReason (resp_status completed) false)
       (if truthy (resp_id created)
        then Some (responseMetadata (providerName cfg) (resp_id created))
        else None)] /\
  join "" (text_deltas events) = d1 +:+ d2 +:+ d3.
Proof.
  intros Hraw Hid events. apply truthy_true in Hid.
  assert (Hev : events =
    [StreamStart (warnings cfg);
     ResponseMetadata (resp_id created) (resp_created_at created * 1000)
       (resp_model created) (responseHeaders cfg);
     TextStart id;
     TextDelta id d1; TextDelta id d2; TextDelta id d3;
     TextEnd id;
     Finish (mapUsage (resp_usage completed))
       (mapFinishReason (resp_status completed) false)
       (if truthy (resp_id created)
        then Some (responseMetadata (providerName cfg) (resp_id created))
        else None)]).
  { subst events. unfold doStream_events, transform_all, start.
    repeat (progress
              (cbn -[truthy mapFinishReason mapUsage Z.mul responseMetadata];
               rewrite ?Hraw, ?Hid)).
    reflexivity. }
  split; [exact Hev|]. rewrite Hev. reflexivity.
Qed.

(** *** The text segment *)

Lemma count_type_app ty (l1 l2 : list StreamPart) :
  count_type ty (l1 ++ l2) = (count_type ty l1 + count_type ty l2)%nat.
Proof. unfold count_type. now rewrite List.filter_app, length_app. Qed.

Lemma text_delta_ids_app (l1 l2 : list StreamPart) :
  text_delta_ids (l1 ++ l2) = text_delta_ids l1 ++ text_delta_ids l2.
Proof. apply omap_app. Qed.

Lemma mid_stream_count ty (l : list StreamPart) :
  ty = "finish" \/ ty = "text-end" \/ ty = "stream-start" ->
  Forall mid_stream l -> count_type ty l = 0%nat.
Proof.
  intros Hty. induction 1 as [|p l (Hf & He & Hs) _ IH]; [reflexivity|].
  unfold count_type in *. simpl.
  rewrite bool_decide_eq_false_2; [exact IH|].
  destruct Hty as [-> | [-> | ->]]; assumption.
Qed.

Lemma flush_count ty cfg st :
  ty <> "finish" -> ty <> "text-end" ->
  count_type ty (flush cfg (st, [])) = 0%nat.
Proof.
  intros Hf He. unfold flush, enqueue, count_type.
  destruct (activeTextId st) as [id|]; [destruct (truthy id)|];
    destruct (usage st); cbn [app List.filter part_type];
    rewrite ?bool_decide_eq_false_2 by congruence; reflexivity.
Qed.

Lemma transform_item_text cfg item st :
  text_delta_ids (snd (transform_item cfg item (st, []))) = [] /\
  count_type "text-start" (snd (transform_item cfg item (st, []))) = 0%nat.
Proof.
  destruct item as [| |id content [text|]]; simpl; auto.
  - destruct (truthy text); simpl; auto.
  - destruct content as [text|]; [destruct (truthy text)|]; simpl; auto.
Qed.

(** One chunk: a chunk that is not a text delta leaves the segment alone; a
    text delta joins the open segment, or opens one under its own item id. *)
Lemma transform_text cfg chunk st :
  let st' := fst (transform cfg chunk (st, [])) in
  let out := snd (transform cfg chunk (st, [])) in
  match delta_item_id chunk with
  | None =>
      activeTextId st' = activeTextId st /\ text_delta_ids out = [] /\
      count_type "text-start" out = 0%nat
  | Some i =>
      (forall a, activeTextId st = Some a -> a <> "" ->
         activeTextId st' = Some a /\ text_delta_ids out = [a] /\
         count_type "text-start" out = 0%nat) /\
      (activeTextId st = None ->
         activeTextId st' = Some i /\ text_delta_ids out = [i] /\
         count_type "text-start" out = 1%nat)
  end.
Proof.
  unfold transform, enqueue.
  destruct chunk as [event rawValue|error rawValue];
    destruct (includeRawChunks cfg); cbn -[transform_event];
    try (repeat split; reflexivity);
    try rewrite transform_event_frame; cbn [fst snd];
    try rewrite text_delta_ids_app, count_type_app;
    (destruct event; cbn -[transform_item];
     try (repeat split; reflexivity);
     try (split; [apply transform_item_state|apply transform_item_text])).
  all: split; [intros a Ha Hne; rewrite Ha; apply truthy_true in Hne; rewrite Hne
              |intros Hnone; rewrite Hnone]; cbn; auto.
Qed.

Lemma transform_all_text cfg chunks : forall st,
  (activeTextId st = None \/ exists a, activeTextId st = Some a /\ a <> "") ->
  Forall (fun i => i <> "") (delta_item_ids chunks) ->
  let st' := fst (transform_all cfg chunks (st, [])) in
  let out := snd (transform_all cfg chunks (st, [])) in
  match activeTextId st, delta_item_ids chunks with
  | Some a, ids =>
      activeTextId st' = Some a /\ text_delta_ids out = map (fun _ => a) ids /\
      count_type "text-start" out = 0%nat
  | None, [] =>
      activeTextId st' = None /\ text_delta_ids out = [] /\
      count_type "text-start" out = 0%nat
  | None, i :: ids =>
      activeTextId st' = Some i /\ text_delta_ids out = map (fun _ => i) (i :: ids) /\
      count_type "text-start" out = 1%nat
  end.
Proof.
  induction chunks as [|chunk chunks IH]; intros st Hst Hids.
  - simpl. destruct (activeTextId st); auto.
  - cbv zeta.
    change (transform_all cfg (chunk :: chunks) (st, []))
      with (transform_all cfg chunks (transform cfg chunk (st, []))).
    pose proof (transform_text cfg chunk st) as Hstep.
    destruct (transform cfg chunk (st, [])) as [st1 out1] eqn:E1.
    cbn [fst snd] in Hstep.
    rewrite transform_all_frame. cbn [fst snd].
    rewrite text_delta_ids_app, count_type_app.
    unfold delta_item_ids in *. cbn [omap list_omap] in *.
    fold (omap delta_item_id chunks) in *.
    destruct (delta_item_id chunk) as [i|].
    + apply Forall_cons in Hids as [Hi Hids].
      destruct Hstep as [Hopen Hclosed].
      destruct Hst as [Hnone | (a & Ha & Hne)].
      * destruct (Hclosed Hnone) as (H1 & H2 & H3). rewrite Hnone.
        specialize (IH st1 (or_intror (ex_intro _ i (conj H1 Hi))) Hids).
        cbv zeta in IH. rewrite H1 in IH.
        destruct IH as (I1 & I2 & I3).
        rewrite I1, I2, I3, H2, H3. auto.
      * destruct (Hopen a Ha Hne) as (H1 & H2 & H3). rewrite Ha.
        specialize (IH st1 (or_intror (ex_intro _ a (conj H1 Hne))) Hids).
        cbv zeta in IH. rewrite H1 in IH.
        destruct IH as (I1 & I2 & I3).
        rewrite I1, I2, I3, H2, H3. auto.
    + destruct Hstep as (H1 & H2 & H3).
      assert (Hst1 : activeTextId st1 = None \/
                     exists a, activeTextId st1 = Some a /\ a <> "")
        by now rewrite H1.
      specialize (IH st1 Hst1 Hids). cbv zeta in IH.
      rewrite H1 in IH. rewrite H2, H3.
      destruct (activeTextId st) as [a|]; [exact IH|].
      destruct (omap delta_item_id chunks); exact IH.
Qed.

(** At most one text-end, in every stream. *)
Lemma text_end_at_most_once cfg chunks :
  (count_type "text-end" (doStream_events cfg chunks) <= 1)%nat.
Proof.
  rewrite doStream_events_split.
  change (StreamStart (warnings cfg) :: ?l) with ([StreamStart (warnings cfg)] ++ l).
  rewrite !count_type_app.
  rewrite (mid_stream_count "text-end" _ (or_intror (or_introl eq_refl))
             (transform_all_mid_stream cfg chunks initialState)).
  unfold flush, enqueue.
  destruct (activeTextId _) as [id|]; [destruct (truthy id)|];
    destruct (usage _); vm_compute; lia.
Qed.

(** C9. The first part of every stream is the stream-start part carrying
    the warnings, whatever the vendor events are: it comes before everything
    the chunks and the flush produce, no other part is a stream-start, and
    on an empty event sequence it is the only part. *)
Theorem stream_start_first (cfg : StreamConfig) (chunks : list Chunk) :
  (exists rest,
     doStream_events cfg chunks = StreamStart (warnings cfg) :: rest /\
     count_type "stream-start" rest = 0%nat) /\
  doStream_events cfg [] = [StreamStart (warnings cfg)].
Proof.
  split; [|reflexivity].
  rewrite doStream_events_split. eexists. split; [reflexivity|].
  rewrite count_type_app.
  rewrite (mid_stream_count "stream-start" _ (or_intror (or_intror eq_refl))
             (transform_all_mid_stream cfg chunks initialState)).
  now rewrite flush_count by discriminate.
Qed.

(** The invariant of the text segment, for item ids that are not the empty
    string: at most one text-start, at most one text-end, and every
    text-delta carries the item id of the first text delta event. *)
Lemma text_segment_single cfg chunks :
  Forall (fun i => i <> "") (delta_item_ids chunks) ->
  (count_type "text-start" (doStream_events cfg chunks) <= 1)%nat /\
  (count_type "text-end" (doStream_events cfg chunks) <= 1)%nat /\
  (forall first, head (delta_item_ids chunks) = Some first ->
   text_delta_ids (doStream_events cfg chunks) =
   map (fun _ => first) (delta_item_ids chunks)).
Proof.
  intros Hids.
  pose proof (transform_all_text cfg chunks initialState (or_introl eq_refl) Hids) as H.
  cbn [activeTextId initialState] in H.
  split; [|split; [apply text_end_at_most_once|]].
  - rewrite doStream_events_split.
    change (StreamStart (warnings cfg) :: ?l) with ([StreamStart (warnings cfg)] ++ l).
    rewrite !count_type_app.
    assert (Hflush : forall st,
              count_type "text-start" (flush cfg (st, [])) = 0%nat).
    { intros st. unfold flush, enqueue.
      destruct (activeTextId st) as [id|]; [destruct (truthy id)|];
        destruct (usage st); reflexivity. }
    rewrite Hflush.
    destruct (delta_item_ids chunks); destruct H as (_ & _ & ->); vm_compute; lia.
  - intros first Hfirst. rewrite doStream_events_split.
    change (StreamStart (warnings cfg) :: ?l) with ([StreamStart (warnings cfg)] ++ l).
    rewrite !text_delta_ids_app.
    assert (Hflush : forall st, text_delta_ids (flush cfg (st, [])) = []).
    { intros st. unfold flush, enqueue.
      destruct (activeTextId st) as [id|]; [destruct (truthy id)|];
        destruct (usage st); reflexivity. }
    rewrite Hflush, List.app_nil_r.
    destruct (delta_item_ids chunks) as [|i ids]; [discriminate|].
    injection Hfirst as ->. destruct H as (_ & -> & _). reflexivity.
Qed.

(** For such item ids every segment that was opened is closed at the end of
    the stream: there are as many text-end parts as text-start parts. *)
Lemma text_segment_closed cfg chunks :
  Forall (fun i => i <> "") (delta_item_ids chunks) ->
  count_type "text-end" (doStream_events cfg chunks) =
  count_type "text-start" (doStream_events cfg chunks).
Proof.
  intros Hids.
  pose proof (transform_all_text cfg chunks initialState (or_introl eq_refl) Hids) as H.
  cbn [activeTextId initialState] in H.
  rewrite doStream_events_split.
  change (StreamStart (warnings cfg) :: ?l) with ([StreamStart (warnings cfg)] ++ l).
  rewrite !count_type_app.
  rewrite (mid_stream_count "text-end" _ (or_intror (or_introl eq_refl))
             (transform_all_mid_stream cfg chunks initialState)).
  rewrite (flush_count "text-start") by discriminate.
  unfold flush, enqueue.
  destruct (delta_item_ids chunks) as [|i ids]; destruct H as (-> & _ & ->).
  - destruct (usage _); reflexivity.
  - apply Forall_cons in Hids as [Hi _]. apply truthy_true in Hi. rewrite Hi.
    destruct (usage _); reflexivity.
Qed.

(** *** Validation failures in the stream *)

(** A chunk that failed validation becomes an error part carrying the
    failure, after the raw part if raw chunks are requested; the finish
    reason of the state is set to "error" and nothing else changes. *)
Lemma validation_failure_in_band cfg error rawValue st controller :
  transform cfg (ChunkFailure error rawValue) (st, controller) =
  (set_finishReason (Some {| unified := "error"; raw := "error" |}) st,
   controller ++
     (if includeRawChunks cfg then [RawChunk rawValue] else []) ++
     [ErrorPart error]).
Proof.
  unfold transform, enqueue. destruct (includeRawChunks cfg); simpl.
  - now rewrite <- List.app_assoc.
  - reflexivity.
Qed.

(** The chunks after a failed one are still transformed. *)
Lemma validation_failure_continues cfg error rawValue chunks st controller :
  transform_all cfg (ChunkFailure error rawValue :: chunks) (st, controller) =
  transform_all cfg chunks
    (set_finishReason (Some {| unified := "error"; raw := "error" |}) st,
     controller ++
       (if includeRawChunks cfg then [RawChunk rawValue] else []) ++
       [ErrorPart error]).
Proof.
  unfold transform_all. cbn [fold_left]. now rewrite validation_failure_in_band.
Qed.

(** A terminal event writes the finish reason from its status and the
    tool-call flag alone: whatever an earlier validation failure had stored
    is replaced. *)
Lemma terminal_event_sets_finishReason cfg event response rawValue st controller :
  event = ResponseCompleted response \/ event = ResponseFailed response ->
  finishReason (fst (transform cfg (ChunkSuccess event rawValue) (st, controller))) =
  Some (mapFinishReason (resp_status response) (sawToolCall st)).
Proof.
  intros [-> | ->]; unfold transform; destruct (includeRawChunks cfg); reflexivity.
Qed.

(** *** The tool message *)

Lemma convertToolParts_frame (parts : list ToolPart) : forall input,
  fold_left (fun input part => convertToolPart part input) parts input =
  input ++
  flat_map (fun part =>
              match part with
              | ToolApprovalResponse _ _ _ => []
              | ToolResult toolCallId _ output =>
                  [FunctionCallOutputItem toolCallId (toToolOutputString output)]
              end) parts.
Proof.
  induction parts as [|part parts IH]; intros input; cbn [fold_left flat_map].
  - now rewrite List.app_nil_r.
  - rewrite IH. destruct part; cbn [convertToolPart app].
    + now rewrite <- List.app_assoc.
    + reflexivity.
Qed.

(** C5. For every tool message, the items it adds are, in the order of its
    parts, nothing for an approval response and one [function_call_output]
    item for every other part, pairing the call id with the coerced output;
    text and error-text values are passed through, json, error-json and
    content values are serialized, a denial becomes its reason or the fixed
    message, and any other payload is serialized whole. *)
Theorem tool_message_translation (parts : list ToolPart) (input : list InputItem) :
  convertMessage (ToolMessage parts) input =
    input ++
    flat_map (fun part =>
                match part with
                | ToolApprovalResponse _ _ _ => []
                | ToolResult toolCallId _ output =>
                    [FunctionCallOutputItem toolCallId (toToolOutputString output)]
                end) parts /\
  (forall value, toToolOutputString (OutputText value) = value) /\
  (forall value, toToolOutputString (OutputErrorText value) = value) /\
  (forall value, toToolOutputString (OutputJson value) = JSON_stringify value) /\
  (forall value, toToolOutputString (OutputErrorJson value) = JSON_stringify value) /\
  (forall value, toToolOutputString (OutputContent value) = JSON_stringify value) /\
  (forall reason, toToolOutputString (OutputExecutionDenied (Some reason)) = reason) /\
  toToolOutputString (OutputExecutionDenied None) = "Tool execution denied." /\
  (forall payload, toToolOutputString (OutputOther payload) = JSON_stringify payload).
Proof.
  split; [apply convertToolParts_frame|]. repeat split.
Qed.

(** *** System and developer messages *)

Lemma append_empty (a b : string) : a +:+ b = "" -> a = "" /\ b = "".
Proof. destruct a; simpl; [auto|discriminate]. Qed.

Lemma join_LF_empty (texts : list string) :
  join LF texts = "" <-> texts = [] \/ texts = [""].
Proof.
  split.
  - destruct texts as [|x [|y rest]]; cbn [join]; intros H.
    + now left.
    + right. now subst.
    + apply append_empty in H as [_ H]. discriminate.
  - intros [-> | ->]; reflexivity.
Qed.

(** C6, as the code has it.  A system or developer message whose text
    parts, joined by line feeds, give the empty string (there is no text
    part, or there is exactly one and it is empty) adds no item. *)
Theorem system_message_elided (content : Content) (input : list InputItem) :
  let texts := map part_text (List.filter is_text (normalizeContentParts content)) in
  texts = [] \/ texts = [""] ->
  convertMessage (SystemMessage content) input = input /\
  convertMessage (DeveloperMessage content) input = input.
Proof.
  intros texts H. apply join_LF_empty in H.
  unfold convertMessage, system_text. fold texts. rewrite H. auto.
Qed.

(** In every other case the message adds one message item, whose content is
    the joined text and is not empty. *)
Lemma system_message_kept (content : Content) (input : list InputItem) :
  let texts := map part_text (List.filter is_text (normalizeContentParts content)) in
  ~ (texts = [] \/ texts = [""]) ->
  join LF texts <> "" /\
  convertMessage (SystemMessage content) input =
    input ++ [MessageItem "system" (PlainText (join LF texts))] /\
  convertMessage (DeveloperMessage content) input =
    input ++ [MessageItem "developer" (PlainText (join LF texts))].
Proof.
  intros texts H. rewrite <- join_LF_empty in H.
  unfold convertMessage, system_text. fold texts.
  apply truthy_true in H as Ht. rewrite Ht. auto.
Qed.

(** *** Tools *)

Lemma length_zero_nil {A} (l : list A) : Nat.eqb (length l) 0 = true <-> l = [].
Proof. destruct l; simpl; split; congruence. Qed.

Lemma provider_tools_exist (tools : list Tool) :
  Nat.ltb 0 (length (List.filter is_provider tools)) = true <->
  Exists (fun tool => is_function tool = false) tools.
Proof.
  induction tools as [|tool tools IH]; simpl.
  - split; [discriminate|]. intros H. inversion H.
  - destruct tool; simpl.
    + rewrite IH. split; [now constructor 2|].
      intros H. inversion H; subst; [discriminate|assumption].
    + split; [|reflexivity]. intros _. now constructor 1.
Qed.

Lemma translated_function_tools (tools : list Tool) :
  Forall2
    (fun tool translated =>
       exists name description schema,
         tool = FunctionTool name description schema /\
         translated =
           {| tool_type := "function";
              tool_function :=
                {| fn_name := name; fn_description := description;
                   fn_parameters := Some schema |} |})
    (List.filter is_function tools)
    (map toOpenClawTool (List.filter is_function tools)).
Proof.
  induction tools as [|tool tools IH]; simpl; [constructor|].
  destruct tool as [name description schema|]; simpl; [|exact IH].
  constructor; [|exact IH]. exists name, description, schema. auto.
Qed.

(** C7. For every tool list: the result holds one record per function tool,
    in order, each [{type: "function", function: {name, description,
    parameters}}] built from that tool, and nothing for the other tools; as
    soon as one tool is not a function tool the "providerTools" unsupported
    warning is appended to the warnings and the result is still returned;
    with no function tool the result is [undefined], never an empty list. *)
Theorem mapTools_policy (tools : list Tool) (warnings : list Warning) :
  let result := fst (mapTools (Some tools) warnings) in
  let warnings' := snd (mapTools (Some tools) warnings) in
  let functionTools := List.filter is_function tools in
  (functionTools = [] -> result = None) /\
  (functionTools <> [] ->
   exists translated,
     result = Some translated /\ translated <> [] /\
     Forall2
       (fun tool t =>
          exists name description schema,
            tool = FunctionTool name description schema /\
            t = {| tool_type := "function";
                   tool_function :=
                     {| fn_name := name; fn_description := description;
                        fn_parameters := Some schema |} |})
       functionTools translated) /\
  (Exists (fun tool => is_function tool = false) tools ->
   warnings' = warnings ++ [providerToolsWarning]) /\
  (Forall (fun tool => is_function tool = true) tools -> warnings' = warnings) /\
  result <> Some [] /\
  mapTools None warnings = (None, warnings).
Proof.
  intros result warnings' functionTools.
  subst result warnings'. unfold mapTools. fold functionTools.
  destruct (Nat.eqb (length tools) 0) eqn:Hlen.
  - apply length_zero_nil in Hlen. subst tools. cbn [fst snd].
    repeat split; try discriminate.
    + intros H. now contradict H.
    + intros H. inversion H.
  - destruct (Nat.eqb (length functionTools) 0) eqn:Hfun; cbn [fst snd].
    + apply length_zero_nil in Hfun.
      repeat split; try discriminate.
      * intros H. now contradict H.
      * intros H. apply provider_tools_exist in H. now rewrite H.
      * intros H. destruct (Nat.ltb 0 _) eqn:Hp; [|reflexivity].
        apply provider_tools_exist in Hp.
        apply List.Exists_exists in Hp as (t & Hin & Hf).
        rewrite List.Forall_forall in H. rewrite (H t Hin) in Hf. discriminate.
    + assert (Hne : functionTools <> []).
      { intros H. rewrite H in Hfun. discriminate. }
      repeat split.
      * intros H. now contradict H.
      * intros _. exists (map toOpenClawTool functionTools). repeat split.
        -- intros H. apply map_eq_nil in H. contradiction.
        -- apply translated_function_tools.
      * intros H. apply provider_tools_exist in H. now rewrite H.
      * intros H. destruct (Nat.ltb 0 _) eqn:Hp; [|reflexivity].
        apply provider_tools_exist in Hp.
        apply List.Exists_exists in Hp as (t & Hin & Hf).
        rewrite List.Forall_forall in H. rewrite (H t Hin) in Hf. discriminate.
      * intros H. injection H as H. apply map_eq_nil in H. contradiction.
Qed.

(** *** The translation does not depend on the array it appends to *)

Lemma convertPart_frame assistant part input contentParts :
  convertPart assistant part (input, contentParts) =
  (input ++ fst (convertPart assistant part ([], [])),
   contentParts ++ snd (convertPart assistant part ([], []))).
Proof.
  destruct part as [text|mediaType data filename| | |]; cbn [convertPart];
    rewrite ?List.app_nil_r; try reflexivity.
  destruct data as [href|data|bytes]; [|destruct (isHttpUrl data)|];
    cbn [fst snd app]; rewrite ?List.app_nil_r; reflexivity.
Qed.

Lemma convertParts_frame assistant parts : forall input contentParts,
  fold_left (fun s part => convertPart assistant part s) parts (input, contentParts) =
  (input ++ fst (fold_left (fun s part => convertPart assistant part s) parts ([], [])),
   contentParts ++
     snd (fold_left (fun s part => convertPart assistant part s) parts ([], []))).
Proof.
  induction parts as [|part parts IH]; intros input contentParts; cbn [fold_left].
  - cbn [fst snd]. now rewrite !List.app_nil_r.
  - rewrite convertPart_frame.
    destruct (convertPart assistant part ([], [])) as [in1 cp1]. cbn [fst snd].
    rewrite IH. rewrite (IH in1 cp1). cbn [fst snd].
    now rewrite <- !List.app_assoc.
Qed.

Lemma convertMessage_frame message input :
  convertMessage message input = input ++ convertMessage message [].
Proof.
  destruct message as [content|content|content|content|parts];
    cbn -[system_text convertPart].
  1, 2: destruct (truthy (system_text content)); now rewrite ?List.app_nil_r.
  1, 2: rewrite convertParts_frame;
    destruct (fold_left _ (normalizeContentParts content) ([], [])) as [in1 cp1];
    cbn [fst snd app]; destruct (length cp1);
    now rewrite <- ?List.app_assoc.
  rewrite convertToolParts_frame.
  now rewrite (convertToolParts_frame parts []).
Qed.

Lemma convertMessages_frame prompt : forall input,
  convertMessages prompt input = input ++ convertMessages prompt [].
Proof.
  unfold convertMessages.
  induction prompt as [|message prompt IH]; intros input; cbn [fold_left].
  - now rewrite List.app_nil_r.
  - rewrite IH. rewrite (IH (convertMessage message [])).
    rewrite convertMessage_frame. now rewrite List.app_assoc.
Qed.

(** C8. The translation is a function of the prompt alone.  The only state
    the loop touches is the array [input] it appends to, and what it appends
    does not depend on what the array holds: two runs on the same prompt,
    from whatever arrays, add the same items, the ones
    [convertPromptToInput] returns. *)
Theorem convertPromptToInput_pure (prompt : list Message)
    (input1 input2 : list InputItem) :
  exists items,
    convertPromptToInput prompt = items /\
    convertMessages prompt input1 = input1 ++ items /\
    convertMessages prompt input2 = input2 ++ items.
Proof.
  exists (convertMessages prompt []). split; [reflexivity|].
  split; apply convertMessages_frame.
Qed.

(** ** Further properties of the stream *)

Ltac break_match :=
  match goal with
  | |- context [match ?x with _ => _ end] => is_var x; destruct x
  | |- context [truthy ?x] => destruct (truthy x)
  | |- context [includeRawChunks ?x] => destruct (includeRawChunks x)
  | |- context [match activeTextId ?x with _ => _ end] => destruct (activeTextId x)
  | |- context [match usage ?x with _ => _ end] => destruct (usage x)
  | |- context [match responseId ?x with _ => _ end] => destruct (responseId x)
  end.

(** A view of the parts that each chunk determines on its own is the
    concatenation of the views of the chunks. *)
Lemma transform_all_project {B : Type} (f : StreamPart -> option B)
    (g : Chunk -> list B) cfg :
  (forall chunk st, omap f (snd (transform cfg chunk (st, []))) = g chunk) ->
  forall chunks st,
    omap f (snd (transform_all cfg chunks (st, []))) = flat_map g chunks.
Proof.
  intros Hstep. induction chunks as [|chunk chunks IH]; intros st; [reflexivity|].
  change (transform_all cfg (chunk :: chunks) (st, []))
    with (transform_all cfg chunks (transform cfg chunk (st, []))).
  specialize (Hstep chunk st).
  destruct (transform cfg chunk (st, [])) as [st1 out1].
  rewrite transform_all_frame. cbn [snd flat_map] in *.
  now rewrite omap_app, IH, Hstep.
Qed.

Lemma doStream_events_project {B : Type} (f : StreamPart -> option B)
    (g : Chunk -> list B) cfg chunks :
  (forall w, f (StreamStart w) = None) ->
  (forall id, f (TextEnd id) = None) ->
  (forall u r m, f (Finish u r m) = None) ->
  (forall chunk st, omap f (snd (transform cfg chunk (st, []))) = g chunk) ->
  omap f (doStream_events cfg chunks) = flat_map g chunks.
Proof.
  intros Hstart Hend Hfinish Hstep. rewrite doStream_events_split.
  change (StreamStart (warnings cfg) :: ?l) with ([StreamStart (warnings cfg)] ++ l).
  rewrite !omap_app, (transform_all_project f g cfg Hstep).
  cbn [omap list_omap]. rewrite Hstart. cbn [app].
  replace (omap f (flush cfg _)) with (@nil B); [now rewrite List.app_nil_r|].
  unfold flush, enqueue.
  repeat break_match; cbn [omap list_omap app]; rewrite ?Hend, ?Hfinish; reflexivity.
Qed.

Lemma flat_map_option {A B : Type} (h : A -> option B) (l : list A) :
  flat_map (fun x => match h x with Some y => [y] | None => [] end) l = omap h l.
Proof.
  induction l as [|x l IH]; [reflexivity|].
  cbn [flat_map omap list_omap]. fold (omap h l). rewrite IH.
  destruct (h x); reflexivity.
Qed.

(** The text of a stream is the text of its delta events: the deltas of the
    text-delta parts are the deltas of the [response.output_text.delta]
    events that passed validation, in arrival order, none lost and none
    added, whatever the item ids and the other events are. *)
Theorem stream_text_preserved (cfg : StreamConfig) (chunks : list Chunk) :
  text_deltas (doStream_events cfg chunks) = omap chunk_delta chunks.
Proof.
  rewrite <- flat_map_option. apply doStream_events_project; try reflexivity.
  intros chunk st. unfold transform, transform_event, transform_item, enqueue.
  destruct chunk as [event rawValue|error rawValue]; cbn;
    repeat break_match; reflexivity.
Qed.

(** Raw parts mirror the chunks: when raw chunks are requested there is one
    raw part per chunk, valid or not, carrying its raw value, in order; when
    they are not, the stream holds no raw part. *)
Theorem stream_raw_values (cfg : StreamConfig) (chunks : list Chunk) :
  raw_values (doStream_events cfg chunks) =
  if includeRawChunks cfg then map chunk_rawValue chunks else [].
Proof.
  unfold raw_values.
  rewrite (doStream_events_project _
             (fun chunk => if includeRawChunks cfg then [chunk_rawValue chunk] else []));
    try reflexivity.
  - destruct (includeRawChunks cfg).
    + induction chunks as [|chunk chunks IH]; [reflexivity|].
      cbn [flat_map map app]. now rewrite IH.
    + induction chunks as [|chunk chunks IH]; [reflexivity|exact IH].
  - intros chunk st. unfold transform, transform_event, transform_item, enqueue.
    destruct chunk as [event rawValue|error rawValue]; cbn;
      repeat break_match; reflexivity.
Qed.

(** Every chunk that fails validation gives one error part carrying its
    error, in order, and nothing else gives an error part. *)
Theorem stream_error_values (cfg : StreamConfig) (chunks : list Chunk) :
  error_values (doStream_events cfg chunks) = omap chunk_error chunks.
Proof.
  rewrite <- flat_map_option. apply doStream_events_project; try reflexivity.
  intros chunk st. unfold transform, transform_event, transform_item, enqueue.
  destruct chunk as [event rawValue|error rawValue]; cbn;
    repeat break_match; reflexivity.
Qed.

(** Every [response.output_item.added] and every [response.output_item.done]
    event carrying a function call gives one tool-call part, in order, with
    the call id, name and arguments of the item and its id as metadata: a
    call announced by both events is emitted twice. *)
Theorem stream_tool_calls (cfg : StreamConfig) (chunks : list Chunk) :
  tool_call_parts (doStream_events cfg chunks) =
  map (fun '(call_id, name, arguments, id) =>
         ToolCall call_id name arguments (itemMetadata (providerName cfg) id))
    (omap chunk_function_call chunks).
Proof.
  set (view := fun p : StreamPart =>
                 match p with ToolCall _ _ _ _ => Some p | _ => None end).
  assert (Hview : forall parts, tool_call_parts parts = omap view parts).
  { induction parts as [|p parts IH]; [reflexivity|].
    unfold tool_call_parts in *. cbn [List.filter omap list_omap].
    fold (omap view parts). rewrite <- IH. destruct p; reflexivity. }
  rewrite Hview.
  rewrite (doStream_events_project view
             (fun chunk =>
                match chunk_function_call chunk with
                | Some (call_id, name, arguments, id) =>
                    [ToolCall call_id name arguments
                       (itemMetadata (providerName cfg) id)]
                | None => []
                end)); try reflexivity.
  - induction chunks as [|chunk chunks IH]; [reflexivity|].
    cbn [flat_map omap list_omap]. rewrite IH.
    destruct (chunk_function_call chunk) as [[[[? ?] ?] ?]|]; reflexivity.
  - intros chunk st. subst view.
    unfold transform, transform_event, transform_item, enqueue,
      chunk_function_call, chunk_item, function_call.
    destruct chunk as [event rawValue|error rawValue]; cbn;
      repeat break_match; reflexivity.
Qed.


(** *** A text delta never comes before its text start *)

Lemma transform_item_no_text cfg item st k id d :
  snd (transform_item cfg item (st, [])) !! k <> Some (TextDelta id d).
Proof.
  unfold transform_item, enqueue.
  destruct item as [| |? [?|] [?|]]; cbn; repeat break_match; cbn;
    repeat (destruct k as [|k]; cbn; try discriminate).
Qed.

(** One chunk: a text delta it emits follows a text start it emits, or
    belongs to the segment that was open; the segment open afterwards was
    open before or is started by the chunk. *)
Lemma transform_text_order cfg chunk st :
  let st' := fst (transform cfg chunk (st, [])) in
  let new := snd (transform cfg chunk (st, [])) in
  (forall k id d, new !! k = Some (TextDelta id d) ->
     (exists j, (j < k)%nat /\ new !! j = Some (TextStart id)) \/
     (activeTextId st = Some id /\ id <> "")) /\
  (forall a, activeTextId st' = Some a -> a <> "" ->
     activeTextId st = Some a \/ exists j, new !! j = Some (TextStart a)).
Proof.
  destruct chunk as [event rawValue|error rawValue].
  2: { unfold transform, enqueue. destruct (includeRawChunks cfg); cbn;
       (split;
        [intros k id d H; repeat (destruct k as [|k]; cbn in H; try discriminate H)
        |intros a Ha _; now left]). }
  assert (Hother : forall (raws : list StreamPart),
            (forall k id d, raws !! k <> Some (TextDelta id d)) ->
            forall st1 new1,
              activeTextId st1 = activeTextId st ->
              (forall k id d, new1 !! k <> Some (TextDelta id d)) ->
              (forall k id d, (raws ++ new1) !! k = Some (TextDelta id d) ->
                 (exists j, (j < k)%nat /\ (raws ++ new1) !! j = Some (TextStart id)) \/
                 (activeTextId st = Some id /\ id <> "")) /\
              (forall a, activeTextId st1 = Some a -> a <> "" ->
                 activeTextId st = Some a \/
                 exists j, (raws ++ new1) !! j = Some (TextStart a))).
  { intros raws Hraws st1 new1 Hst Hnew. split.
    - intros k id d H. apply lookup_app_Some in H as [H | [_ H]].
      + now apply Hraws in H.
      + now apply Hnew in H.
    - intros a Ha _. left. now rewrite <- Hst. }
  set (raws := if includeRawChunks cfg then [RawChunk rawValue] else []).
  assert (Hraws : forall k id d, raws !! k <> Some (TextDelta id d)).
  { subst raws. intros k id d.
    destruct (includeRawChunks cfg);
      repeat (destruct k as [|k]; cbn; try discriminate). }
  assert (Hform : transform cfg (ChunkSuccess event rawValue) (st, []) =
                  transform_event cfg event (st, raws)).
  { unfold transform, enqueue. subst raws.
    now destruct (includeRawChunks cfg). }
  rewrite Hform. rewrite transform_event_frame. cbn [fst snd].
  destruct event as [r|r|r|r|item_id oi ci delta|? ? ? ?|? item|? item|? ? ? ?|? ? ? ?];
    cbn -[transform_item];
    try (apply Hother;
         [exact Hraws|reflexivity
         |intros k id d; repeat (destruct k as [|k]; cbn; try discriminate)]);
    try (apply Hother;
         [exact Hraws|apply transform_item_state|apply transform_item_no_text]).
  unfold enqueue.
  destruct (activeTextId st) as [a0|] eqn:Ha; [destruct (truthy a0) eqn:Ht|];
    cbn [fst snd app activeTextId set_activeTextId]; split.
  - intros k id d H. apply lookup_app_Some in H as [H | [_ H]];
      [now apply Hraws in H|].
    destruct (k - length raws)%nat as [|[|n]]; cbn in H; try discriminate H.
    injection H as <- <-. right. split; [reflexivity|now apply truthy_true].
  - intros a Hst' _. left. now rewrite Ha in Hst'.
  - intros k id d H. apply lookup_app_Some in H as [H | [Hk H]];
      [now apply Hraws in H|].
    destruct (k - length raws)%nat as [|[|[|n]]] eqn:Hidx; cbn in H;
      try discriminate H.
    injection H as <- <-. left. exists (length raws). split; [lia|].
    apply lookup_app_Some. right. split; [lia|]. now rewrite Nat.sub_diag.
  - intros a Hst' _. injection Hst' as <-. right. exists (length raws).
    apply lookup_app_Some. right. split; [lia|]. now rewrite Nat.sub_diag.
  - intros k id d H. apply lookup_app_Some in H as [H | [Hk H]];
      [now apply Hraws in H|].
    destruct (k - length raws)%nat as [|[|[|n]]] eqn:Hidx; cbn in H;
      try discriminate H.
    injection H as <- <-. left. exists (length raws). split; [lia|].
    apply lookup_app_Some. right. split; [lia|]. now rewrite Nat.sub_diag.
  - intros a Hst' _. injection Hst' as <-. right. exists (length raws).
    apply lookup_app_Some. right. split; [lia|]. now rewrite Nat.sub_diag.
Qed.

(** What holds of the state and the controller after any number of chunks. *)
Lemma transform_all_text_order cfg chunks : forall st out,
  (forall i id d, out !! i = Some (TextDelta id d) ->
     exists j, (j < i)%nat /\ out !! j = Some (TextStart id)) ->
  (forall a, activeTextId st = Some a -> a <> "" ->
     exists j, out !! j = Some (TextStart a)) ->
  let st' := fst (transform_all cfg chunks (st, out)) in
  let out' := snd (transform_all cfg chunks (st, out)) in
  (forall i id d, out' !! i = Some (TextDelta id d) ->
     exists j, (j < i)%nat /\ out' !! j = Some (TextStart id)) /\
  (forall a, activeTextId st' = Some a -> a <> "" ->
     exists j, out' !! j = Some (TextStart a)).
Proof.
  induction chunks as [|chunk chunks IH]; intros st out Hout Hst; [now split|].
  cbv zeta.
  change (transform_all cfg (chunk :: chunks) (st, out))
    with (transform_all cfg chunks (transform cfg chunk (st, out))).
  rewrite transform_frame.
  destruct (transform_text_order cfg chunk st) as [Hnew Hst1].
  destruct (transform cfg chunk (st, [])) as [st1 new]. cbn [fst snd] in *.
  apply IH.
  - intros i id d H. apply lookup_app_Some in H as [H | [Hi H]].
    + destruct (Hout i id d H) as (j & Hj & Hlook). exists j. split; [exact Hj|].
      now apply lookup_app_l_Some.
    + destruct (Hnew _ id d H) as [(j & Hj & Hlook) | [Ha Hne]].
      * exists (length out + j)%nat. split; [lia|].
        apply lookup_app_Some. right. split; [lia|].
        now replace (length out + j - length out)%nat with j by lia.
      * destruct (Hst id Ha Hne) as (j & Hlook). exists j. split.
        -- apply lookup_lt_Some in Hlook. lia.
        -- now apply lookup_app_l_Some.
  - intros a Ha Hne. destruct (Hst1 a Ha Hne) as [Hold | (j & Hlook)].
    + destruct (Hst a Hold Hne) as (j & Hlook). exists j.
      now apply lookup_app_l_Some.
    + exists (length out + j)%nat.
      apply lookup_app_Some. right. split; [lia|].
      now replace (length out + j - length out)%nat with j by lia.
Qed.

(** In every stream, each text-delta part is preceded by a text-start part
    with the same id. *)
Theorem text_delta_after_start (cfg : StreamConfig) (chunks : list Chunk)
    (i : nat) (id delta : string) :
  doStream_events cfg chunks !! i = Some (TextDelta id delta) ->
  exists j, (j < i)%nat /\ doStream_events cfg chunks !! j = Some (TextStart id).
Proof.
  unfold doStream_events.
  destruct (transform_all_text_order cfg chunks initialState (start cfg [])) as [Hout _].
  - intros k id' d H. unfold start, enqueue in H.
    repeat (destruct k as [|k]; cbn in H; try discriminate H).
  - intros a Ha. discriminate Ha.
  - destruct (transform_all cfg chunks (initialState, start cfg [])) as [st out].
    cbn [fst snd] in Hout. rewrite flush_frame. intros H.
    apply lookup_app_Some in H as [H | [_ H]].
    + destruct (Hout i id delta H) as (j & Hj & Hlook). exists j.
      split; [exact Hj|]. now apply lookup_app_l_Some.
    + exfalso. revert H. unfold flush, enqueue.
      generalize (i - length out)%nat as k. intros k.
      repeat break_match; cbn;
        repeat (destruct k as [|k]; cbn; try discriminate).
Qed.

(** *** The finish part of a stream that ends with its terminal event *)

Lemma transform_all_app cfg chunks1 chunks2 s :
  transform_all cfg (chunks1 ++ chunks2) s =
  transform_all cfg chunks2 (transform_all cfg chunks1 s).
Proof. unfold transform_all. apply fold_left_app. Qed.

Lemma transform_sawToolCall cfg chunk st controller :
  sawToolCall (fst (transform cfg chunk (st, controller))) =
  sawToolCall st ||
  match chunk_item chunk with
  | Some item => is_function_call item
  | None => false
  end.
Proof.
  unfold transform, transform_event, transform_item, enqueue, chunk_item.
  destruct chunk as [event rawValue|error rawValue]; cbn;
    repeat break_match; cbn; rewrite ?orb_false_r, ?orb_true_r; reflexivity.
Qed.

(** [sawToolCall] is set by the function call items and never reset. *)
Lemma transform_all_sawToolCall cfg chunks : forall st controller,
  sawToolCall (fst (transform_all cfg chunks (st, controller))) =
  sawToolCall st || has_function_call chunks.
Proof.
  induction chunks as [|chunk chunks IH]; intros st controller.
  - cbn. now rewrite orb_false_r.
  - change (transform_all cfg (chunk :: chunks) (st, controller))
      with (transform_all cfg chunks (transform cfg chunk (st, controller))).
    pose proof (transform_sawToolCall cfg chunk st controller) as Hstep.
    destruct (transform cfg chunk (st, controller)) as [st1 out1].
    cbn [fst] in Hstep. rewrite IH, Hstep.
    unfold has_function_call. cbn [existsb]. now rewrite orb_assoc.
Qed.

(** When the last chunk is a valid [response.completed] or
    [response.failed] event, the stream ends with a finish part carrying the
    usage of that event and the finish reason computed from its status and
    from whether an item event before it carried a function call; what a
    validation failure before it had stored is not reported. *)
Theorem finish_after_terminal (cfg : StreamConfig) (chunks : list Chunk)
    (event : StreamEvent) (response : OpenClawResponse) (rawValue : JSON) :
  event = ResponseCompleted response \/ event = ResponseFailed response ->
  exists front metadata,
    doStream_events cfg (chunks ++ [ChunkSuccess event rawValue]) =
    front ++
    [Finish (mapUsage (resp_usage response))
       (mapFinishReason (resp_status response) (has_function_call chunks))
       metadata].
Proof.
  intros Hevent. unfold doStream_events. rewrite transform_all_app.
  pose proof (transform_all_sawToolCall cfg chunks initialState (start cfg [])) as Hsaw.
  destruct (transform_all cfg chunks (initialState, start cfg [])) as [st out].
  cbn [fst sawToolCall initialState orb] in Hsaw.
  unfold transform_all. cbn [fold_left]. unfold transform, enqueue.
  destruct Hevent as [-> | ->]; cbn -[mapFinishReason mapUsage];
    rewrite Hsaw; unfold flush, enqueue;
    cbn -[mapFinishReason mapUsage];
    repeat break_match; eexists _, _; reflexivity.
Qed.

(** ** The generated response *)

Lemma generate_texts_frame providerName id parts : forall content,
  fold_left
    (fun content text => content ++ [TextContent text (itemMetadata providerName id)])
    parts content =
  content ++ map (fun text => TextContent text (itemMetadata providerName id)) parts.
Proof.
  induction parts as [|text parts IH]; intros content; cbn [fold_left map].
  - now rewrite List.app_nil_r.
  - rewrite IH. now rewrite <- List.app_assoc.
Qed.

Lemma generate_item_spec providerName item content saw :
  generate_item providerName item (content, saw) =
  (content ++ item_entries providerName item, saw || is_function_call item).
Proof.
  unfold generate_item, item_entries, reasoning_text.
  destruct item as [id parts status|id call_id name arguments status
                   |id content_ [text|]]; cbn [is_function_call].
  - now rewrite generate_texts_frame, orb_false_r.
  - now rewrite orb_true_r.
  - destruct (truthy text); now rewrite ?List.app_nil_r, orb_false_r.
  - destruct content_ as [text|]; [destruct (truthy text)|];
      now rewrite ?List.app_nil_r, orb_false_r.
Qed.

Lemma generate_content_aux providerName output : forall content saw,
  fold_left (fun s item => generate_item providerName item s) output (content, saw) =
  (content ++ flat_map (item_entries providerName) output,
   saw || existsb is_function_call output).
Proof.
  induction output as [|item output IH]; intros content saw; cbn [fold_left flat_map existsb].
  - now rewrite List.app_nil_r, orb_false_r.
  - rewrite generate_item_spec, IH. now rewrite <- List.app_assoc, orb_assoc.
Qed.

(** The content of a generated response holds, in the order of the output
    items, one text entry per text part of a message item, one tool-call
    entry per function call item, and one reasoning entry per reasoning item
    that has a non-empty text (the summary first), each tagged with the id
    of its item; the tool-call flag is set exactly when some output item is a
    function call. *)
Theorem generate_content_entries (providerName : string) (output : list OutputItem) :
  generate_content providerName output =
  (flat_map (item_entries providerName) output, existsb is_function_call output).
Proof. unfold generate_content. now rewrite generate_content_aux. Qed.

Lemma mapFinishReason_tool_calls status saw :
  unified (mapFinishReason status saw) = "tool-calls" <->
  saw = true \/ status = "incomplete".
Proof.
  unfold mapFinishReason. destruct saw; cbn [orb].
  - split; auto.
  - destruct (bool_decide_reflect (status = "incomplete")) as [->|Hne].
    + split; auto.
    + repeat case_decide; cbn; split; try discriminate;
        intros [?|?]; congruence.
Qed.

(** [doGenerate] throws exactly when the response carries an error field,
    whatever its status and output; the error thrown has the vendor message,
    status code 400 and is not retryable. *)
Theorem doGenerate_error (modelId : string) (config : OpenClawResponsesConfig)
    (options : CallOptions) (providerOptions : option OpenClawProviderOptions)
    (http : HttpResult) :
  (forall error, resp_error (http_value http) = Some error ->
   exists thrown,
     doGenerate modelId config options providerOptions http = inl thrown /\
     ace_message thrown = err_message error /\
     ace_statusCode thrown = 400 /\ ace_isRetryable thrown = false) /\
  (resp_error (http_value http) = None ->
   exists result, doGenerate modelId config options providerOptions http = inr result).
Proof.
  unfold doGenerate.
  destruct (getArgs modelId options providerOptions) as [[body warnings] po].
  split.
  - intros error ->. eexists. repeat split.
  - intros ->. destruct (generate_content _ _). eexists. reflexivity.
Qed.

(** A generated response reports the finish reason "tool-calls" exactly
    when its output holds a function call item or its status is
    "incomplete", whatever else the status says. *)
Theorem doGenerate_tool_calls (modelId : string) (config : OpenClawResponsesConfig)
    (options : CallOptions) (providerOptions : option OpenClawProviderOptions)
    (http : HttpResult) (result : GenerateResult) :
  doGenerate modelId config options providerOptions http = inr result ->
  (unified (gr_finishReason result) = "tool-calls" <->
   existsb is_function_call (resp_output (http_value http)) = true \/
   resp_status (http_value http) = "incomplete").
Proof.
  unfold doGenerate.
  destruct (getArgs modelId options providerOptions) as [[body warnings] po].
  destruct (resp_error (http_value http)); [discriminate|].
  unfold generate_content. rewrite generate_content_aux. cbn [orb app].
  intros H. injection H as <-. cbn [gr_finishReason].
  apply mapFinishReason_tool_calls.
Qed.

(** *** The streamed and the generated response agree *)

Lemma transform_item_chunks cfg items rawValue : forall st out,
  let s' :=
    transform_all cfg
      (map (fun item => ChunkSuccess (OutputItemDone 0 item) rawValue) items)
      (st, out) in
  responseId (fst s') = responseId st /\
  activeTextId (fst s') = activeTextId st /\
  sawToolCall (fst s') = sawToolCall st || existsb is_function_call items.
Proof.
  induction items as [|item items IH]; intros st out.
  - cbn. now rewrite orb_false_r.
  - cbv zeta. cbn [map].
    change (transform_all cfg (?c :: ?cs) (st, out))
      with (transform_all cfg cs (transform cfg c (st, out))).
    assert (Hstep : forall controller,
              let s1 := transform_item cfg item (st, controller) in
              responseId (fst s1) = responseId st /\
              activeTextId (fst s1) = activeTextId st /\
              sawToolCall (fst s1) = sawToolCall st || is_function_call item).
    { intros controller. unfold transform_item, enqueue.
      destruct item as [| |? [?|] [?|]]; cbn; repeat break_match; cbn;
        rewrite ?orb_false_r, ?orb_true_r; auto. }
    unfold transform. cbn -[transform_item].
    match goal with
    | |- context [transform_item cfg item (st, ?c)] =>
        destruct (Hstep c) as (H1 & H2 & H3);
        destruct (transform_item cfg item (st, c)) as [st1 out1]
    end.
    cbn [fst] in *. destruct (IH st1 out1) as (I1 & I2 & I3).
    rewrite I1, I2, I3, H1, H2, H3. cbn [existsb]. now rewrite orb_assoc.
Qed.

Lemma tool_call_entries_items providerName items :
  tool_call_entries (flat_map (item_entries providerName) items) =
  flat_map
    (fun item =>
       match function_call item with
       | Some (call_id, name, arguments, id) =>
           [ToolCallContent call_id name arguments (itemMetadata providerName id)]
       | None => []
       end) items.
Proof.
  unfold tool_call_entries.
  induction items as [|item items IH]; [reflexivity|].
  cbn [flat_map]. rewrite List.filter_app, IH. f_equal.
  destruct item as [id parts ?| |? [?|] [?|]]; cbn; repeat break_match; try reflexivity.
  induction parts as [|text parts IHp]; [reflexivity|exact IHp].
Qed.

(** A response delivered as a stream agrees with the same response
    delivered at once.  When the stream carries [response.created], one
    [response.output_item.done] per output item and [response.completed],
    all for the response that [doGenerate] turns into a result, it ends with
    a finish part holding the usage and the finish reason of that result
    (and its response-id metadata unless the id is empty), its tool-call
    parts are the tool-call entries of the result's content, in order, and
    its stream-start part carries the result's warnings. *)
Theorem stream_agrees_with_generate (modelId : string)
    (config : OpenClawResponsesConfig) (options : CallOptions)
    (providerOptions : option OpenClawProviderOptions) (http : HttpResult)
    (includeRaw : bool) (headers : gmap string string) (rawValue : JSON)
    (result : GenerateResult) :
  doGenerate modelId config options providerOptions http = inr result ->
  let response := http_value http in
  let cfg := doStream_config modelId config options providerOptions includeRaw headers in
  let events :=
    doStream_events cfg
      (ChunkSuccess (ResponseCreated response) rawValue ::
       map (fun item => ChunkSuccess (OutputItemDone 0 item) rawValue)
         (resp_output response) ++
       [ChunkSuccess (ResponseCompleted response) rawValue]) in
  (exists front,
     events =
     StreamStart (gr_warnings result) :: front ++
     [Finish (gr_usage result) (gr_finishReason result)
        (if truthy (resp_id response) then Some (gr_providerMetadata result)
         else None)]) /\
  omap tool_call_entry events = tool_call_entries (gr_content result).
Proof.
  unfold doGenerate, doStream_config.
  destruct (getArgs modelId options providerOptions) as [[body warnings] po].
  destruct (resp_error (http_value http)); [discriminate|].
  unfold generate_content. rewrite generate_content_aux. cbn [orb app].
  intros H. injection H as <-.
  cbn [gr_warnings gr_usage gr_finishReason gr_providerMetadata gr_content].
  set (response := http_value http).
  set (cfg := {| providerName := cfg_providerName config; responseHeaders := headers;
                 includeRawChunks := includeRaw; warnings := warnings |}).
  cbv zeta. split.
  - unfold doStream_events.
    change (?c :: ?l ++ ?r) with ([c] ++ (l ++ r)).
    rewrite !transform_all_app.
    destruct (transform_all cfg [ChunkSuccess (ResponseCreated response) rawValue]
                (initialState, start cfg [])) as [st1 out1] eqn:E1.
    assert (Hst1 : responseId st1 = Some (resp_id response) /\
                   activeTextId st1 = None /\ sawToolCall st1 = false /\
                   exists front1, out1 = StreamStart warnings :: front1).
    { unfold transform_all, transform, start, enqueue in E1. cbn in E1.
      destruct includeRaw; injection E1 as <- <-; repeat split; eexists; reflexivity. }
    destruct Hst1 as (R1 & A1 & S1 & front1 & ->).
    set (item_chunks :=
           map (fun item => ChunkSuccess (OutputItemDone 0 item) rawValue)
             (resp_output response)).
    set (s2 := transform_all cfg item_chunks
                 (@pair StreamState Controller st1 (StreamStart warnings :: front1))).
    assert (Hitems : responseId (fst s2) = responseId st1 /\
                     activeTextId (fst s2) = activeTextId st1 /\
                     sawToolCall (fst s2) =
                       sawToolCall st1 || existsb is_function_call (resp_output response))
      by apply transform_item_chunks.
    assert (Hsnd : snd s2 =
                   (StreamStart warnings :: front1) ++
                   snd (transform_all cfg item_chunks (st1, [])))
      by (subst s2; now rewrite transform_all_frame).
    destruct Hitems as (R2 & A2 & S2).
    rewrite R1 in R2. rewrite A1 in A2. rewrite S1 in S2. cbn [orb] in S2.
    rewrite (surjective_pairing s2). rewrite Hsnd.
    set (st2 := fst s2) in *.
    set (mid := snd (transform_all cfg item_chunks (st1, []))).
    unfold transform_all. cbn [fold_left]. unfold transform, enqueue.
    cbn -[mapFinishReason mapUsage truthy]. unfold flush, enqueue.
    cbn -[mapFinishReason mapUsage truthy]. rewrite A2, R2, S2.
    destruct includeRaw; cbn -[mapFinishReason mapUsage truthy];
      destruct (truthy (resp_id response)); eexists; reflexivity.
  - rewrite (doStream_events_project tool_call_entry
               (fun chunk =>
                  match chunk_function_call chunk with
                  | Some (call_id, name, arguments, id) =>
                      [ToolCallContent call_id name arguments
                         (itemMetadata (providerName cfg) id)]
                  | None => []
                  end)); try reflexivity.
    + rewrite tool_call_entries_items. cbn [flat_map chunk_function_call chunk_item app].
      rewrite flat_map_app. cbn [flat_map chunk_function_call chunk_item app].
      rewrite List.app_nil_r.
      induction (resp_output response) as [|item items IH]; [reflexivity|].
      cbn [map flat_map]. now rewrite IH.
    + intros chunk st.
      unfold transform, transform_event, transform_item, enqueue,
        chunk_function_call, chunk_item, function_call.
      destruct chunk as [event raw|error raw]; cbn;
        repeat break_match; reflexivity.
Qed.

(** ** Further properties of the prompt translation *)

(** Every message is translated on its own and the results are laid end to
    end in the order of the messages; so the translation of two prompts put
    together is the two translations put together. *)
Theorem convertPromptToInput_messages (prompt1 prompt2 : list Message) :
  convertPromptToInput prompt1 =
    flat_map (fun message => convertMessage message []) prompt1 /\
  convertPromptToInput (prompt1 ++ prompt2) =
    convertPromptToInput prompt1 ++ convertPromptToInput prompt2.
Proof.
  unfold convertPromptToInput, convertMessages. split.
  - induction prompt1 as [|message prompt IH]; [reflexivity|].
    cbn [fold_left flat_map].
    fold (convertMessages prompt (convertMessage message [])).
    rewrite convertMessages_frame. unfold convertMessages. now rewrite IH.
  - rewrite fold_left_app.
    fold (convertMessages prompt1 []).
    fold (convertMessages prompt2 (convertMessages prompt1 [])).
    now rewrite convertMessages_frame.
Qed.

Lemma convertPart_items assistant part :
  fst (convertPart assistant part ([], [])) = top_level_items part.
Proof.
  destruct part as [|mediaType data filename| | |]; cbn; try reflexivity.
  destruct data as [|data|]; [|destruct (isHttpUrl data)|]; reflexivity.
Qed.

Lemma convertParts_spec assistant parts : forall input contentParts,
  fold_left (fun s part => convertPart assistant part s) parts (input, contentParts) =
  (input ++ flat_map top_level_items parts,
   contentParts ++ flat_map (content_parts assistant) parts).
Proof.
  induction parts as [|part parts IH]; intros input contentParts;
    cbn [fold_left flat_map].
  - now rewrite !List.app_nil_r.
  - rewrite convertPart_frame, IH, convertPart_items.
    unfold content_parts. now rewrite <- !List.app_assoc.
Qed.

(** A [user] or [assistant] message gives first the function call and
    reasoning items of its parts, in the order of the parts, and then, when
    some part gave a content part, one message item holding all the content
    parts in order: the message item comes last even when its text came
    before a tool call. *)
Theorem message_items_order (content : Content) (input : list InputItem) :
  let parts := normalizeContentParts content in
  let message_item (r : string) (assistant : bool) :=
    match flat_map (content_parts assistant) parts with
    | [] => []
    | contentParts => [MessageItem r (Parts contentParts)]
    end in
  convertMessage (UserMessage content) input =
    input ++ flat_map top_level_items parts ++ message_item "user" false /\
  convertMessage (AssistantMessage content) input =
    input ++ flat_map top_level_items parts ++ message_item "assistant" true.
Proof.
  cbv zeta. unfold convertMessage. rewrite !convertParts_spec. cbn [app role].
  rewrite !bool_decide_eq_false_2, ?bool_decide_eq_true_2 by (reflexivity || discriminate).
  split.
  - destruct (flat_map (content_parts false) _); cbn;
      now rewrite ?List.app_nil_r, <- ?List.app_assoc.
  - destruct (flat_map (content_parts true) _); cbn;
      now rewrite ?List.app_nil_r, <- ?List.app_assoc.
Qed.

(** An assistant message made of tool calls only gives one function call
    item per call, in order, and no message item. *)
Theorem assistant_tool_calls_only (calls : list (string * string * string))
    (input : list InputItem) :
  convertMessage
    (AssistantMessage
       (ContentParts
          (map (fun '(toolCallId, toolName, args) =>
                  ToolCallPart toolCallId toolName args) calls)))
    input =
  input ++
  map (fun '(toolCallId, toolName, args) =>
         FunctionCallItem toolCallId toolName args) calls.
Proof.
  unfold convertMessage. rewrite convertParts_spec. cbn [normalizeContentParts app].
  assert (Hitems : forall l : list (string * string * string),
            flat_map top_level_items
              (map (fun '(toolCallId, toolName, args) =>
                      ToolCallPart toolCallId toolName args) l) =
            map (fun '(toolCallId, toolName, args) =>
                   FunctionCallItem toolCallId toolName args) l).
  { induction l as [|[[? ?] ?] l IH]; [reflexivity|]. cbn. now rewrite IH. }
  assert (Hparts : forall l : list (string * string * string),
            flat_map (content_parts true)
              (map (fun '(toolCallId, toolName, args) =>
                      ToolCallPart toolCallId toolName args) l) = []).
  { induction l as [|[[? ?] ?] l IH]; [reflexivity|exact IH]. }
  cbn [role]. rewrite bool_decide_eq_true_2 by reflexivity.
  now rewrite Hitems, Hparts.
Qed.

Lemma convertMessage_has_content message :
  Forall has_content (convertMessage message []).
Proof.
  destruct message as [content|content|content|content|parts].
  1, 2: unfold convertMessage; destruct (truthy (system_text content)) eqn:Ht;
    [|constructor]; cbn [app]; constructor; [|constructor];
    now apply truthy_true.
  1, 2: unfold convertMessage; rewrite convertParts_spec; cbn [app];
    match goal with
    | |- context [flat_map (content_parts ?a) ?l] =>
        destruct (flat_map (content_parts a) l) eqn:Hcp
    end; cbn [length Nat.ltb Nat.leb]; rewrite ?List.app_nil_r;
    try apply Forall_app; repeat split;
    try (apply Forall_flat_map, Forall_forall; intros [] _; repeat constructor);
    repeat constructor; discriminate.
  unfold convertMessage. rewrite convertToolParts_frame. cbn [app].
  apply Forall_flat_map, Forall_forall. intros [] _; repeat constructor.
Qed.

(** No message item of a translated prompt is empty: a plain-text content
    is never the empty string and a list of content parts never the empty
    list. *)
Theorem no_empty_message_items (prompt : list Message) :
  Forall has_content (convertPromptToInput prompt).
Proof.
  unfold convertPromptToInput.
  induction prompt as [|message prompt IH]; [constructor|].
  unfold convertMessages in *. cbn [fold_left].
  fold (convertMessages prompt (convertMessage message [])).
  rewrite convertMessages_frame. apply Forall_app. split.
  - apply convertMessage_has_content.
  - exact IH.
Qed.

(** ** The provider factory and the request *)

(** When the resolved api key is a non-empty string, the headers hold
    [Authorization: Bearer key], replacing an [Authorization] header of the
    settings, and every other header of the settings unchanged; when no key
    is resolved, or the empty string, the headers are those of the settings. *)
Theorem provider_headers_authorization (settings : OpenClawProviderSettings)
    (env : gmap string string) :
  (forall key, resolve_apiKey settings env = Some key -> key <> "" ->
     provider_headers settings env !! "Authorization" = Some ("Bearer " +:+ key) /\
     forall name, name <> "Authorization" ->
       provider_headers settings env !! name =
       nullish (set_headers settings) ∅ !! name) /\
  (resolve_apiKey settings env = None \/ resolve_apiKey settings env = Some "" ->
   provider_headers settings env = nullish (set_headers settings) ∅).
Proof.
  unfold provider_headers. split.
  - intros key -> Hkey. apply truthy_true in Hkey. rewrite Hkey. split.
    + apply lookup_insert_eq.
    + intros name Hname. now apply lookup_insert_ne.
  - intros [-> | ->]; reflexivity.
Qed.


Lemma strip_trailing_slash_app (value : string) :
  strip_trailing_slash (value +:+ "/") = value.
Proof.
  induction value as [|c rest IH]; [reflexivity|].
  destruct rest as [|c' rest]; [reflexivity|].
  change (strip_trailing_slash (String c (String c' rest) +:+ "/"))
    with (String c (strip_trailing_slash (String c' rest +:+ "/"))).
  now rewrite IH.
Qed.

(** The request URL does not depend on one trailing slash of the base URL:
    a base URL written with a final slash gives the URL of the base URL
    written without it, the base followed by [/responses]. *)
Theorem responses_url_trailing_slash (base : string) :
  responses_url (base +:+ "/") = base +:+ "/responses".
Proof. unfold responses_url. now rewrite strip_trailing_slash_app. Qed.

(** The two routing headers: the session key and the agent id are each sent
    exactly when they are given and not empty, under their own header name,
    and nothing else is added. *)
Theorem extra_headers_lookup (providerOptions : option OpenClawProviderOptions)
    (name : string) :
  extra_headers providerOptions !! name =
  if decide (name = "x-openclaw-session-key") then
    match optional_field providerOptions po_sessionKey with
    | Some value => if truthy value then Some value else None
    | None => None
    end
  else if decide (name = "x-openclaw-agent-id") then
    match optional_field providerOptions po_agentId with
    | Some value => if truthy value then Some value else None
    | None => None
    end
  else None.
Proof.
  unfold extra_headers.
  destruct (optional_field providerOptions po_sessionKey) as [session|];
    [destruct (truthy session)|];
    (destruct (optional_field providerOptions po_agentId) as [agent|];
     [destruct (truthy agent)|]);
    repeat case_decide; subst;
    rewrite ?lookup_insert_eq, ?lookup_insert_ne, ?lookup_empty by congruence;
    try reflexivity; try discriminate.
  all: rewrite lookup_insert_ne by discriminate;
    rewrite ?lookup_insert_eq, ?lookup_empty; reflexivity.
Qed.

Lemma warn_unsupported_features {A : Type} (value : option A) name warnings :
  map feature (warn_unsupported value name warnings) =
  map feature warnings ++ match value with Some _ => [name] | None => [] end.
Proof.
  unfold warn_unsupported. destruct value; [|now rewrite List.app_nil_r].
  now rewrite map_app.
Qed.

Lemma mapTools_features tools warnings :
  map feature (snd (mapTools tools warnings)) =
  map feature warnings ++
  match tools with
  | Some tools => if existsb is_provider tools then ["providerTools"] else []
  | None => []
  end.
Proof.
  unfold mapTools. destruct tools as [tools|]; [|now rewrite List.app_nil_r].
  assert (Hprov : Nat.ltb 0 (length (List.filter is_provider tools)) =
                  existsb is_provider tools).
  { induction tools as [|tool tools IH]; [reflexivity|].
    cbn [List.filter existsb]. destruct (is_provider tool); [reflexivity|exact IH]. }
  destruct tools as [|tool tools]; [now rewrite List.app_nil_r|].
  cbn [length Nat.eqb]. rewrite Hprov.
  destruct (existsb is_provider (tool :: tools));
    destruct (Nat.eqb _ 0); cbn [snd]; now rewrite ?map_app, ?List.app_nil_r.
Qed.

(** The warnings of a request: one "unsupported" warning for each of topK,
    stopSequences, presencePenalty, frequencyPenalty, seed and
    responseFormat that is set, in that order, then the providerTools warning
    when the tool list holds a provider tool; nothing else, so a call that
    sets none of them and passes function tools only has no warning. *)
Theorem getArgs_warnings (modelId : string) (options : CallOptions)
    (providerOptions : option OpenClawProviderOptions) :
  let present {A : Type} (value : option A) (name : string) : list string :=
    match value with Some _ => [name] | None => [] end in
  map feature (snd (fst (getArgs modelId options providerOptions))) =
    present (opt_topK options) "topK" ++
    present (opt_stopSequences options) "stopSequences" ++
    present (opt_presencePenalty options) "presencePenalty" ++
    present (opt_frequencyPenalty options) "frequencyPenalty" ++
    present (opt_seed options) "seed" ++
    present (opt_responseFormat options) "responseFormat" ++
    match opt_tools options with
    | Some tools => if existsb is_provider tools then ["providerTools"] else []
    | None => []
    end.
Proof.
  cbv zeta. unfold getArgs.
  match goal with
  | |- context [mapTools ?t ?w] =>
      pose proof (mapTools_features t w) as H;
      destruct (mapTools t w) as [tools warnings]
  end.
  cbn [fst snd] in *. rewrite H, !warn_unsupported_features.
  cbn [map app]. now rewrite <- !List.app_assoc.
Qed.

(** The request body: its input is the translated prompt, its tools field
    is never an empty list, and it has a reasoning block exactly when a
    non-empty reasoning effort or reasoning summary is given, holding both
    as given. *)
Theorem getArgs_body (modelId : string) (options : CallOptions)
    (providerOptions : option OpenClawProviderOptions) :
  let body := fst (fst (getArgs modelId options providerOptions)) in
  let given_effort := optional_field providerOptions po_reasoningEffort in
  let given_summary := optional_field providerOptions po_reasoningSummary in
  body_model body = modelId /\
  body_input body = convertPromptToInput (opt_prompt options) /\
  body_tools body <> Some [] /\
  (body_reasoning body = None <->
   truthy_opt given_effort = false /\ truthy_opt given_summary = false) /\
  (forall block, body_reasoning body = Some block ->
   effort block = given_effort /\ summary block = given_summary).
Proof.
  cbv zeta. unfold getArgs.
  match goal with
  | |- context [mapTools ?t ?w] =>
      assert (Htools : fst (mapTools t w) <> Some []);
      [|destruct (mapTools t w) as [tools warnings]]
  end.
  { unfold mapTools. destruct (opt_tools options) as [tools|]; [|discriminate].
    destruct (Nat.eqb (length tools) 0); [discriminate|].
    destruct (Nat.eqb (length (List.filter is_function tools)) 0) eqn:Hlen;
      [discriminate|].
    cbn [fst]. intros H. injection H as H. apply map_eq_nil in H.
    rewrite H in Hlen. discriminate. }
  cbn [fst snd body_model body_input body_tools body_reasoning] in *.
  split; [reflexivity|]. split; [reflexivity|]. split; [exact Htools|].
  destruct (truthy_opt (optional_field providerOptions po_reasoningEffort));
    destruct (truthy_opt (optional_field providerOptions po_reasoningSummary));
    cbn [orb]; (split; [split|]);
    try discriminate; try (intros [? ?]; discriminate); auto;
    intros block Hblock; injection Hblock as <-; auto.
Qed.

Lemma lower_app (a b : string) : lower (a +:+ b) = lower a +:+ lower b.
Proof.
  induction a as [|c a IH]; [reflexivity|].
  change (String (ascii_lower c) (lower (a +:+ b)) =
          String (ascii_lower c) (lower a +:+ lower b)).
  now rewrite IH.
Qed.

Lemma prefix_app (a b : string) : String.prefix a (a +:+ b) = true.
Proof.
  induction a as [|c a IH]; [now destruct b|].
  change (String.prefix (String c a) (String c (a +:+ b)) = true).
  cbn [String.prefix].
  destruct (Ascii.ascii_dec c c); [exact IH|contradiction].
Qed.

(** The URL test ignores the case of the scheme and looks at the beginning
    only: a string that starts with [http://] or [https://], in any mix of
    upper and lower case, is taken as a URL, whatever follows. *)
Theorem isHttpUrl_scheme (scheme rest : string) :
  lower scheme = "http://" \/ lower scheme = "https://" ->
  isHttpUrl (scheme +:+ rest) = true.
Proof.
  intros H. unfold isHttpUrl. rewrite lower_app.
  destruct H as [-> | ->]; rewrite prefix_app; [reflexivity|apply orb_true_r].
Qed.

End Provider.

(** ** Runs on concrete inputs

    The unknown values are strings here: a raw value is the text of the
    event, a parse error is its message, a JSON value is held in serialized
    form (so that serializing is the identity). *)

(** The policy of C2 at three statuses. *)
Lemma mapFinishReason_policy_witness :
  unified (mapFinishReason "incomplete" false) = "tool-calls" /\
  unified (mapFinishReason "completed" false) = "stop" /\
  mapFinishReason "cancelled" false = {| unified := "other"; raw := "cancelled" |}.
Proof.
  split; [|split].
  - destruct (mapFinishReason_policy "incomplete" false) as [H _].
    apply H. right. reflexivity.
  - destruct (mapFinishReason_policy "completed" false) as [_ H].
    destruct (H eq_refl) as (Hc & _ & _); [discriminate|].
    apply Hc. reflexivity.
  - destruct (mapFinishReason_policy "cancelled" false) as [_ H].
    destruct (H eq_refl) as (_ & _ & Ho); [discriminate|].
    apply Ho; discriminate.
Defined.

(** C1 as stated fails: with raw chunks requested, the five events give
    thirteen parts, a stream-start and five raw parts among them, not the
    seven of the claim. *)
Lemma text_stream_not_exactly_seven :
  let events :=
    @doStream_events string string (sample_config true)
      [ChunkSuccess (ResponseCreated (sample_response "in_progress")) "created";
       ChunkSuccess (OutputTextDelta "msg_1" 0 0 "Hel") "delta 1";
       ChunkSuccess (OutputTextDelta "msg_1" 0 0 "lo ") "delta 2";
       ChunkSuccess (OutputTextDelta "msg_1" 0 0 "you") "delta 3";
       ChunkSuccess (ResponseCompleted (sample_response "completed")) "completed"] in
  map part_type events =
    ["stream-start"; "raw"; "response-metadata"; "raw"; "text-start";
     "text-delta"; "raw"; "text-delta"; "raw"; "text-delta"; "raw";
     "text-end"; "finish"] /\
  map part_type events <>
    ["response-metadata"; "text-start"; "text-delta"; "text-delta";
     "text-delta"; "text-end"; "finish"].
Proof.
  split; [vm_compute; reflexivity|vm_compute; discriminate].
Qed.

(** Without raw chunks the stream-start part still comes before the seven. *)
Example text_stream_plain :
  map part_type
    (@doStream_events string string (sample_config false)
       [ChunkSuccess (ResponseCreated (sample_response "in_progress")) "created";
        ChunkSuccess (OutputTextDelta "msg_1" 0 0 "Hel") "delta 1";
        ChunkSuccess (OutputTextDelta "msg_1" 0 0 "lo ") "delta 2";
        ChunkSuccess (OutputTextDelta "msg_1" 0 0 "you") "delta 3";
        ChunkSuccess (ResponseCompleted (sample_response "completed")) "completed"]) =
    ["stream-start"; "response-metadata"; "text-start"; "text-delta";
     "text-delta"; "text-delta"; "text-end"; "finish"].
Proof. vm_compute. reflexivity. Qed.

(** The amended C1 at a concrete call. *)
Lemma text_stream_reconstruction_witness :
  includeRawChunks (sample_config false) = false /\
  "msg_1" <> "" /\
  let events :=
    @doStream_events string string (sample_config false)
      [ChunkSuccess (ResponseCreated (sample_response "in_progress")) "created";
       ChunkSuccess (OutputTextDelta "msg_1" 0 0 "Hel") "delta 1";
       ChunkSuccess (OutputTextDelta "msg_1" 0 1 "lo ") "delta 2";
       ChunkSuccess (OutputTextDelta "msg_1" 0 2 "you") "delta 3";
       ChunkSuccess (ResponseCompleted (sample_response "completed")) "completed"] in
  events =
    [StreamStart [];
     ResponseMetadata "resp_1" 1700000000000 "openclaw:main" ∅;
     TextStart "msg_1";
     TextDelta "msg_1" "Hel"; TextDelta "msg_1" "lo "; TextDelta "msg_1" "you";
     TextEnd "msg_1";
     Finish (mapUsage sample_usage) {| unified := "stop"; raw := "completed" |}
       (Some (responseMetadata "openclaw" "resp_1"))] /\
  join "" (text_deltas events) = "Hello you".
Proof.
  split; [reflexivity|]. split; [discriminate|].
  apply (text_stream_reconstruction (sample_config false)
           (sample_response "in_progress") (sample_response "completed")
           "msg_1" "Hel" "lo " "you" 0 0 0 1 0 2
           "created" "delta 1" "delta 2" "delta 3" "completed").
  - reflexivity.
  - discriminate.
Defined.

(** A stream that ends after [response.created] and one text delta: the
    open segment is closed by a text-end and there is no finish part. *)
Lemma flush_finish_policy_witness :
  let chunks :=
    [@ChunkSuccess string string
       (ResponseCreated (sample_response "in_progress")) "created";
     ChunkSuccess (OutputTextDelta "msg_1" 0 0 "Hel") "delta 1"] in
  last_terminal chunks = None /\
  doStream_events (sample_config false) chunks =
    [StreamStart [];
     ResponseMetadata "resp_1" 1700000000000 "openclaw:main" ∅;
     TextStart "msg_1"; TextDelta "msg_1" "Hel";
     TextEnd "msg_1"] /\
  count_type "finish" (doStream_events (sample_config false) chunks) = 0%nat.
Proof.
  intros chunks.
  destruct (flush_finish_policy (sample_config false) chunks)
    as (closing & finishing & Heq & _ & Hopen & _ & Hnone & _).
  destruct (Hnone eq_refl) as (_ & Hfin & Hcount).
  split; [reflexivity|]. split; [|exact Hcount].
  rewrite Heq, Hfin, (Hopen "msg_1" eq_refl); [reflexivity|discriminate].
Defined.

(** A stream that ends with [response.completed]: one finish part, with
    the usage of that event and the response id recorded at
    [response.created]. *)
Example flush_after_completed :
  @doStream_events string string (sample_config false)
    [ChunkSuccess (ResponseCreated (sample_response "in_progress")) "created";
     ChunkSuccess (ResponseCompleted (sample_response "completed")) "completed"] =
    [StreamStart [];
     ResponseMetadata "resp_1" 1700000000000 "openclaw:main" ∅;
     Finish (mapUsage sample_usage) {| unified := "stop"; raw := "completed" |}
       (Some (responseMetadata "openclaw" "resp_1"))].
Proof. reflexivity. Qed.


(** Only a failure that comes after the terminal event is reported. *)
Example validation_failure_after_completed_reports_error :
  @doStream_events string string (sample_config false)
    [ChunkSuccess (ResponseCompleted (sample_response "completed")) "completed";
     ChunkFailure "Type validation failed" "{}"] =
    [StreamStart [];
     ErrorPart "Type validation failed";
     Finish (mapUsage sample_usage) {| unified := "error"; raw := "error" |}
       None].
Proof. reflexivity. Qed.

(** C10 fails on the code.  When the first text delta has the empty string
    as item id, the segment is not seen as open: the next delta opens a
    second segment, so there are two text-start parts and the second
    text-delta carries the second item id, not the first. *)
Theorem empty_item_id_reopens_segment :
  let events :=
    @doStream_events string string (sample_config false)
      [ChunkSuccess (OutputTextDelta "" 0 0 "Hel") "delta 1";
       ChunkSuccess (OutputTextDelta "msg_2" 0 0 "lo") "delta 2"] in
  events =
    [StreamStart [];
     TextStart ""; TextDelta "" "Hel";
     TextStart "msg_2"; TextDelta "msg_2" "lo";
     TextEnd "msg_2"] /\
  count_type "text-start" events = 2%nat /\
  text_delta_ids events = [""; "msg_2"].
Proof. repeat split. Qed.

(** With the empty item id throughout, every delta opens a segment and none
    is closed. *)
Example empty_item_id_never_closed :
  @doStream_events string string (sample_config false)
    [ChunkSuccess (OutputTextDelta "" 0 0 "Hel") "delta 1";
     ChunkSuccess (OutputTextDelta "" 0 0 "lo") "delta 2"] =
    [StreamStart [];
     TextStart ""; TextDelta "" "Hel";
     TextStart ""; TextDelta "" "lo"].
Proof. reflexivity. Qed.

(** C3 fails on the code.  A stream that ends after [response.created] and
    one text delta whose item id is the empty string: the text-start part
    has opened a segment, but no text-end part closes it at the end of the
    stream, because [flush] takes the empty id for no segment. *)
Theorem empty_item_id_segment_not_closed :
  let events :=
    @doStream_events string string (sample_config false)
      [ChunkSuccess (ResponseCreated (sample_response "in_progress")) "created";
       ChunkSuccess (OutputTextDelta "" 0 0 "Hel") "delta 1"] in
  events =
    [StreamStart [];
     ResponseMetadata "resp_1" 1700000000000 "openclaw:main" ∅;
     TextStart ""; TextDelta "" "Hel"] /\
  count_type "text-start" events = 1%nat /\
  count_type "text-end" events = 0%nat.
Proof. repeat split. Qed.

(** C6 as stated fails: a system message of two empty text parts is kept,
    as a message item whose content is the separator. *)
Lemma two_empty_system_texts_kept :
  @convertPromptToInput string (fun value => value) (fun _ => "")
    [SystemMessage (ContentParts [TextPart ""; TextPart ""])] =
    [MessageItem "system" (PlainText LF)] /\
  @convertPromptToInput string (fun value => value) (fun _ => "")
    [SystemMessage (ContentParts [TextPart ""; TextPart ""])] <> [].
Proof. split; [reflexivity|discriminate]. Qed.

(** The amended C6 at a system message holding a file part and one empty
    text part. *)
Lemma system_message_elided_witness :
  let content :=
    @ContentParts string
      [FilePart "image/png" (DataString "aGVsbG8=") None; TextPart ""] in
  (map part_text (List.filter is_text (normalizeContentParts content)) = [] \/
   map part_text (List.filter is_text (normalizeContentParts content)) = [""]) /\
  convertMessage (fun value => value) (fun _ => "") (SystemMessage content) [] = [] /\
  convertMessage (fun value => value) (fun _ => "") (DeveloperMessage content) [] = [].
Proof.
  intros content. split; [right; reflexivity|].
  apply (system_message_elided (fun value => value) (fun _ => "") content []).
  right. reflexivity.
Defined.

(** C5 on a tool message with a json result, an approval response and a
    denial without reason. *)
Example tool_message_example :
  @convertPromptToInput string (fun value => value) (fun _ => "")
    [ToolMessage
       [ToolResult "call_1" "lookup" (OutputJson "[1,2,3]");
        ToolApprovalResponse "approval_1" true None;
        ToolResult "call_2" "delete" (OutputExecutionDenied None)]] =
    [FunctionCallOutputItem "call_1" "[1,2,3]";
     FunctionCallOutputItem "call_2" "Tool execution denied."].
Proof. reflexivity. Qed.

(** C7 on a list of one function tool and one provider tool. *)
Lemma mapTools_policy_witness :
  let tools :=
    [@FunctionTool string "lookup" (Some "Looks a record up") "{}";
     ProviderTool "openclaw.search" "search" "{}"] in
  List.filter is_function tools <> [] /\
  Exists (fun tool => is_function tool = false) tools /\
  fst (mapTools (Some tools) []) =
    Some [{| tool_type := "function";
             tool_function :=
               {| fn_name := "lookup";
                  fn_description := Some "Looks a record up";
                  fn_parameters := Some "{}" |} |}] /\
  snd (mapTools (Some tools) []) = [providerToolsWarning].
Proof.
  intros tools.
  destruct (mapTools_policy tools []) as (_ & Hsome & Hwarn & _).
  assert (Hfun : List.filter is_function tools <> []) by discriminate.
  assert (Hprov : Exists (fun tool => is_function tool = false) tools)
    by (constructor 2; constructor 1; reflexivity).
  split; [exact Hfun|]. split; [exact Hprov|]. split.
  - destruct (Hsome Hfun) as (translated & -> & _ & Hall).
    inversion Hall as [|? t ? ts (name & description & schema & Htool & ->) Hrest];
      subst.
    inversion Hrest; subst. injection Htool as <- <- <-. reflexivity.
  - exact (Hwarn Hprov).
Defined.

(** ** Further runs on concrete inputs *)

(** The text-delta of a short stream and the text-start before it. *)
Lemma text_delta_after_start_witness :
  let events :=
    @doStream_events string string (sample_config false)
      [ChunkSuccess (ResponseCreated (sample_response "in_progress")) "created";
       ChunkSuccess (OutputTextDelta "msg_1" 0 0 "Hel") "delta 1"] in
  events !! 3%nat = Some (TextDelta "msg_1" "Hel") /\
  exists j, (j < 3)%nat /\ events !! j = Some (TextStart "msg_1").
Proof.
  intros events. split; [reflexivity|].
  apply (text_delta_after_start (sample_config false) _ 3 "msg_1" "Hel").
  reflexivity.
Defined.

(** A validation failure and a function call, then [response.completed]:
    the finish part reports "tool-calls". *)
Lemma finish_after_terminal_witness :
  let chunks :=
    [@ChunkFailure string string "Type validation failed" "{}";
     ChunkSuccess
       (OutputItemDone 0 (ItemFunctionCall "fc_1" "call_1" "lookup" "{}" None))
       "item"] in
  exists front metadata,
    doStream_events (sample_config false)
      (chunks ++ [ChunkSuccess (ResponseCompleted (sample_response "completed")) "done"]) =
    front ++
    [Finish (mapUsage sample_usage) {| unified := "tool-calls"; raw := "tool_calls" |}
       metadata].
Proof.
  intros chunks.
  apply (finish_after_terminal (sample_config false) chunks
           (ResponseCompleted (sample_response "completed"))
           (sample_response "completed") "done").
  left. reflexivity.
Defined.

(** Two deltas with different, non-empty item ids: one segment, under the
    first id. *)
Lemma text_segment_single_witness :
  let chunks :=
    [@ChunkSuccess string string (OutputTextDelta "msg_1" 0 0 "Hel") "delta 1";
     ChunkSuccess (OutputTextDelta "msg_2" 0 0 "lo") "delta 2"] in
  Forall (fun i => i <> "") (delta_item_ids chunks) /\
  (count_type "text-start" (doStream_events (sample_config false) chunks) <= 1)%nat /\
  text_delta_ids (doStream_events (sample_config false) chunks) = ["msg_1"; "msg_1"].
Proof.
  intros chunks.
  assert (Hids : Forall (fun i => i <> "") (delta_item_ids chunks))
    by (repeat constructor; discriminate).
  destruct (text_segment_single (sample_config false) chunks Hids) as (Hs & _ & Hd).
  split; [exact Hids|]. split; [exact Hs|]. exact (Hd "msg_1" eq_refl).
Defined.

Lemma text_segment_closed_witness :
  let chunks :=
    [@ChunkSuccess string string (OutputTextDelta "msg_1" 0 0 "Hel") "delta 1";
     ChunkSuccess (OutputTextDelta "msg_2" 0 0 "lo") "delta 2"] in
  Forall (fun i => i <> "") (delta_item_ids chunks) /\
  count_type "text-end" (doStream_events (sample_config false) chunks) =
  count_type "text-start" (doStream_events (sample_config false) chunks).
Proof.
  intros chunks.
  assert (Hids : Forall (fun i => i <> "") (delta_item_ids chunks))
    by (repeat constructor; discriminate).
  split; [exact Hids|]. exact (text_segment_closed (sample_config false) chunks Hids).
Defined.

(** A response that carries an error field, and one that does not. *)
Lemma doGenerate_error_witness :
  let options : @CallOptions string :=
    {| opt_prompt := [UserMessage (ContentString "hi")]; opt_tools := None;
       opt_toolChoice := None; opt_temperature := None; opt_topP := None;
       opt_maxOutputTokens := None; opt_topK := None; opt_stopSequences := None;
       opt_presencePenalty := None; opt_frequencyPenalty := None;
       opt_seed := None; opt_responseFormat := None |} in
  let config :=
    {| cfg_baseURL := "http://localhost:18789/v1"; cfg_headers := ∅;
       cfg_providerName := "openclaw" |} in
  let response :=
    {| resp_id := "resp_1"; resp_created_at := 1700000000;
       resp_status := "completed"; resp_model := "openclaw:main";
       resp_output := []; resp_usage := sample_usage;
       resp_error := Some {| err_code := "bad_request"; err_message := "no such agent" |} |} in
  let http :=
    {| http_responseHeaders := ∅; http_value := response; http_rawValue := "{}" |} in
  exists thrown,
    doGenerate (fun value => value) (fun _ => "") "openclaw:main" config options None http
      = inl thrown /\
    ace_message thrown = "no such agent" /\
    ace_statusCode thrown = 400 /\ ace_isRetryable thrown = false.
Proof.
  intros options config response http.
  destruct (doGenerate_error (fun value => value) (fun _ => "")
              "openclaw:main" config options None http) as [Herr _].
  apply (Herr {| err_code := "bad_request"; err_message := "no such agent" |}).
  reflexivity.
Defined.

(** A completed response holding a function call reports "tool-calls". *)
Lemma doGenerate_tool_calls_witness :
  let options : @CallOptions string :=
    {| opt_prompt := [UserMessage (ContentString "hi")]; opt_tools := None;
       opt_toolChoice := None; opt_temperature := None; opt_topP := None;
       opt_maxOutputTokens := None; opt_topK := None; opt_stopSequences := None;
       opt_presencePenalty := None; opt_frequencyPenalty := None;
       opt_seed := None; opt_responseFormat := None |} in
  let config :=
    {| cfg_baseURL := "http://localhost:18789/v1"; cfg_headers := ∅;
       cfg_providerName := "openclaw" |} in
  let response :=
    {| resp_id := "resp_1"; resp_created_at := 1700000000;
       resp_status := "completed"; resp_model := "openclaw:main";
       resp_output := [ItemFunctionCall "fc_1" "call_1" "lookup" "{}" None];
       resp_usage := sample_usage; resp_error := None |} in
  let http :=
    {| http_responseHeaders := ∅; http_value := response; http_rawValue := "{}" |} in
  exists result,
    doGenerate (fun value => value) (fun _ => "") "openclaw:main" config options None http
      = inr result /\
    unified (gr_finishReason result) = "tool-calls".
Proof.
  intros options config response http. eexists. split; [reflexivity|].
  eapply (doGenerate_tool_calls (fun value => value) (fun _ => "")
            "openclaw:main" config options None http).
  - reflexivity.
  - left. reflexivity.
Defined.

(** The same response streamed and generated. *)
Lemma stream_agrees_with_generate_witness :
  let options : @CallOptions string :=
    {| opt_prompt := [UserMessage (ContentString "hi")]; opt_tools := None;
       opt_toolChoice := None; opt_temperature := None; opt_topP := None;
       opt_maxOutputTokens := None; opt_topK := Some "40"; opt_stopSequences := None;
       opt_presencePenalty := None; opt_frequencyPenalty := None;
       opt_seed := None; opt_responseFormat := None |} in
  let config :=
    {| cfg_baseURL := "http://localhost:18789/v1"; cfg_headers := ∅;
       cfg_providerName := "openclaw" |} in
  let response :=
    {| resp_id := "resp_1"; resp_created_at := 1700000000;
       resp_status := "completed"; resp_model := "openclaw:main";
       resp_output :=
         [ItemMessage "msg_1" ["Looking it up."] None;
          ItemFunctionCall "fc_1" "call_1" "lookup" "{}" None];
       resp_usage := sample_usage; resp_error := None |} in
  let http :=
    {| http_responseHeaders := ∅; http_value := response; http_rawValue := "{}" |} in
  let events :=
    @doStream_events string string
      (doStream_config (fun value => value) (fun _ => "")
         "openclaw:main" config options None false ∅)
      (ChunkSuccess (ResponseCreated response) "event" ::
       map (fun item => ChunkSuccess (OutputItemDone 0 item) "event")
         (resp_output response) ++
       [ChunkSuccess (ResponseCompleted response) "event"]) in
  exists result,
    doGenerate (fun value => value) (fun _ => "") "openclaw:main" config options None http
      = inr result /\
    (exists front,
       events =
       StreamStart (gr_warnings result) :: front ++
       [Finish (gr_usage result) (gr_finishReason result)
          (Some (gr_providerMetadata result))]) /\
    omap tool_call_entry events = tool_call_entries (gr_content result).
Proof.
  intros options config response http events. eexists. split; [reflexivity|].
  apply (stream_agrees_with_generate (fun value => value) (fun _ => "")
           "openclaw:main" config options None http false ∅ "event").
  reflexivity.
Defined.

(** A token from the environment, over an [Authorization] header of the
    settings. *)
Lemma provider_headers_authorization_witness :
  let settings :=
    {| set_apiKey := None; set_baseURL := None;
       set_headers := Some {[ "Authorization" := "Basic old"; "x-team" := "vida" ]};
       set_providerName := None |} in
  let env : gmap string string := {[ "OPENCLAW_TOKEN" := "secret" ]} in
  resolve_apiKey settings env = Some "secret" /\
  provider_headers settings env !! "Authorization" = Some "Bearer secret" /\
  provider_headers settings env !! "x-team" = Some "vida".
Proof.
  intros settings env.
  destruct (provider_headers_authorization settings env) as [Hkey _].
  assert (Hres : resolve_apiKey settings env = Some "secret") by reflexivity.
  destruct (Hkey "secret" Hres) as [Hauth Hother]; [discriminate|].
  split; [exact Hres|]. split; [exact Hauth|].
  rewrite (Hother "x-team"); [reflexivity|discriminate].
Defined.


(** An upper-case scheme. *)
Lemma isHttpUrl_scheme_witness :
  lower "HTTPS://" = "https://" /\
  isHttpUrl ("HTTPS://" +:+ "example.com/cat.png") = true.
Proof.
  split; [reflexivity|].
  apply (isHttpUrl_scheme "HTTPS://" "example.com/cat.png"). right. reflexivity.
Defined.

(** The body of a request with a reasoning effort. *)
Lemma getArgs_body_witness :
  let options : @CallOptions string :=
    {| opt_prompt := [UserMessage (ContentString "hi")];
       opt_tools := Some [ProviderTool "openclaw.search" "search" "{}"];
       opt_toolChoice := None; opt_temperature := None; opt_topP := None;
       opt_maxOutputTokens := None; opt_topK := None; opt_stopSequences := None;
       opt_presencePenalty := None; opt_frequencyPenalty := None;
       opt_seed := None; opt_responseFormat := None |} in
  let providerOptions :=
    Some {| po_instructions := None; po_user := None;
            po_reasoningEffort := Some "low"; po_reasoningSummary := None;
            po_metadata := None; po_maxToolCalls := None;
            po_sessionKey := None; po_agentId := None |} in
  let body :=
    fst (fst (getArgs (fun value => value) (fun _ => "")
                "openclaw:main" options providerOptions)) in
  body_reasoning body = Some {| effort := Some "low"; summary := None |} /\
  effort {| effort := Some "low"; summary := None |} = Some "low" /\
  body_tools body = None.
Proof.
  intros options providerOptions body.
  destruct (getArgs_body (fun value => value) (fun _ => "")
              "openclaw:main" options providerOptions)
    as (_ & _ & _ & _ & Hblock).
  assert (Hbody : body_reasoning body = Some {| effort := Some "low"; summary := None |})
    by reflexivity.
  split; [exact Hbody|]. split; [|reflexivity].
  exact (proj1 (Hblock _ Hbody)).
Defined.
